(** * Grocery_Optimization: the project-tree builder of [setup_project.py]

    A shallow embedding of [setup_project.py] (classes [Folder] and
    [ProjectTemplate]) and the properties of its tree-resolution algorithm.

    Modelling choices, all taken from the source:
    - a [Folder] object is a value carrying its allocation serial number
      ([oid], standing for Python object identity); its attributes are never
      assigned after [__init__], so values and objects agree on everything
      but identity;
    - the attribute [folder_name] is optional: [__init__] returns before
      assigning it when the name check raises;
    - the operating system is a set of existing directories, a map from file
      names to contents and the list of printed lines; [os.mkdir] raises
      [FileExistsError] on an existing directory and succeeds otherwise,
      writing a file always succeeds (permissions, missing parent
      directories and files in the way of a directory are not modelled);
    - the data frame is the list of its rows, in file order; a row has a
      string [folder_name], a string [parent], a README text that is a
      string or [None] (the [Optional[str]] of [Folder.__init__]) and a
      boolean [minimal]. Reading the template file is outside the model:
      [ProjectTemplate.__init__] starts from the rows;
    - exceptions are explicit: an [outcome] is a value or a raised
      exception, and the state reached so far is kept in both cases;
    - [_check_parent_branch_exists] recurses on fuel; [create_project_tree]
      gives it as many units as there are rows, which is shown to be enough
      ([create_project_tree_total]). *)

From stdpp Require Import base strings list gmap sets pretty.

Set Warnings "-register-all".

(** ** Python string and list primitives *)

Module Py.

(** [sub in s] for two [str]: substring test. *)
Fixpoint contains (sub s : string) : bool :=
  if String.prefix sub s then true
  else match s with
       | EmptyString => false
       | String _ s' => contains sub s'
       end.

(** [sep.join(l)] *)
Definition join (sep : string) (l : list string) : string :=
  String.concat sep l.

(** [any([...])] *)
Definition any (l : list bool) : bool := existsb id l.

(** [str(i)] for a digit [1 <= i <= 9]. *)
Definition str_digit (i : nat) : string :=
  String (Ascii.ascii_of_nat (48 + i)) EmptyString.

Definition upper (c : Ascii.ascii) : Ascii.ascii :=
  let n := Ascii.nat_of_ascii c in
  if Nat.leb 97 n && Nat.leb n 122 then Ascii.ascii_of_nat (n - 32) else c.

Definition lower (c : Ascii.ascii) : Ascii.ascii :=
  let n := Ascii.nat_of_ascii c in
  if Nat.leb 65 n && Nat.leb n 90 then Ascii.ascii_of_nat (n + 32) else c.

Fixpoint lower_all (s : string) : string :=
  match s with
  | EmptyString => EmptyString
  | String c s' => String (lower c) (lower_all s')
  end.

(** [s.capitalize()], on ASCII letters. *)
Definition capitalize (s : string) : string :=
  match s with
  | EmptyString => EmptyString
  | String c s' => String (upper c) (lower_all s')
  end.

(** [l.index(x)]: position of the first occurrence, if any. *)
Fixpoint index (x : string) (l : list string) : option nat :=
  match l with
  | [] => None
  | y :: l' => if decide (y = x) then Some 0 else S <$> index x l'
  end.

(** The values compared by [err.args == '...']: a [str] or a tuple of
    [str]. Values of different types are never equal. *)
Inductive value :=
| Str (s : string)
| Tuple (l : list string).

Definition eq (a b : value) : bool :=
  match a, b with
  | Str x, Str y => bool_decide (x = y)
  | Tuple x, Tuple y => bool_decide (x = y)
  | _, _ => false
  end.

Definition nl : string := String (Ascii.ascii_of_nat 10) EmptyString.
Definition dquote : string := String (Ascii.ascii_of_nat 34) EmptyString.

End Py.

(** [wrap(target, wrapping_str)] *)
Definition wrap (target wrapping_str : string) : string :=
  Py.join "" [wrapping_str; target; wrapping_str].

(** ** Exceptions and outcomes *)

Inductive exn :=
| Exception (msg : string)
| KeyError (key : string)         (* a missing dictionary key *)
| IndexKeyError (i : nat)         (* [KeyError] of [df.at] on a missing row *)
| AttributeError (attr : string)
| FileExistsError (path : string).

(** [err.args] *)
Definition args (e : exn) : Py.value :=
  match e with
  | Exception msg => Py.Tuple [msg]
  | KeyError k => Py.Tuple [k]
  | IndexKeyError _ => Py.Tuple []
  | AttributeError a => Py.Tuple [a]
  | FileExistsError p => Py.Tuple ["17"; "File exists"]
  end.

(** [str(err)], as printed by [print(err)] and ['{0}'.format(err)]. *)
Definition str_exn (e : exn) : string :=
  match e with
  | Exception msg => msg
  | KeyError k => "'" +:+ k +:+ "'"
  | IndexKeyError _ => "index"
  | AttributeError a => "'Folder' object has no attribute '" +:+ a +:+ "'"
  | FileExistsError p => "[Errno 17] File exists: '" +:+ p +:+ "'"
  end.

Inductive outcome (A : Type) :=
| Ret (a : A)
| Raise (e : exn).
Arguments Ret {A} a.
Arguments Raise {A} e.

(** ** The world outside the program *)

Record World := mkWorld {
  dirs : gset string;          (* existing directories *)
  files : gmap string string;  (* file name -> contents *)
  stdout : list string;        (* printed lines, oldest first *)
  next_oid : nat               (* serial number of the next object *)
}.

Definition print (line : string) (w : World) : World :=
  mkWorld (dirs w) (files w) (stdout w ++ [line]) (next_oid w).

(** [os.mkdir(path)] *)
Definition os_mkdir (path : string) (w : World) : outcome unit * World :=
  if decide (path ∈ dirs w) then (Raise (FileExistsError path), w)
  else (Ret tt, mkWorld ({[path]} ∪ dirs w) (files w) (stdout w) (next_oid w)).

(** [with open(name, 'w') as f: f.write(...)]: the file is replaced. *)
Definition write_file (name contents : string) (w : World) : World :=
  mkWorld (dirs w) (<[name := contents]> (files w)) (stdout w) (next_oid w).

Definition alloc (w : World) : nat * World :=
  (next_oid w, mkWorld (dirs w) (files w) (stdout w) (S (next_oid w))).

(** ** class Folder *)

Inductive Folder := mkFolder {
  oid : nat;
  folder_name : option string;   (* [None]: the attribute was never set *)
  parent : option Folder;
  readme_text : option string
}.

Definition reserved_chars : list string :=
  ["<"; ">"; ":"; Py.dquote; "/"; "\"; "|"; "?"; "*"].

Definition reserved_names : list string :=
  ["CON"; "PRN"; "AUX"]
    ++ map (λ i, "COM" +:+ Py.str_digit i) (seq 1 9)
    ++ map (λ i, "LPT" +:+ Py.str_digit i) (seq 1 9).

Definition has_reserved_char (name : string) : bool :=
  Py.any (map (λ c, Py.contains c name) reserved_chars).

Definition has_reserved_name (name : string) : bool :=
  Py.any (map (λ n, Py.contains n name) reserved_names).

(** The [try] block of [__init__]: the name the object gets, or the
    exception raised by the checks. *)
Definition checked_name (name : string) (parent : option Folder)
  : outcome string :=
  if has_reserved_char name then Raise (Exception "ReservedCharError")
  else if has_reserved_name name then Raise (Exception "ReservedNameError")
  else match parent with
       | None => Ret "."
       | Some _ => Ret name
       end.

Definition msg_other (kind : string) : string :=
  "Other unexpected error occurred: " +:+ kind.

(** The line meant for a reserved character. *)
Definition msg_reserved_chars : string :=
  "A reserved character (" +:+ Py.join ", " reserved_chars
    +:+ ") was used. Initialization Failed".

(** The line meant for a reserved name. *)
Definition msg_reserved_names : string :=
  "A reserved name (" +:+ Py.join ", " reserved_names
    +:+ ") was used. Initialization Failed".

(** The [except Exception as err] block of [__init__]. *)
Definition report_init_error (err : exn) (w : World) : World :=
  if Py.eq (args err) (Py.Str "ReservedCharError") then
    print msg_reserved_chars w
  else if Py.eq (args err) (Py.Str "ReservedNameError") then
    print msg_reserved_names w
  else print (msg_other (str_exn err)) w.

(** The [while] loop of [folder_path]: [path] collects the names met
    while walking up from [p]. *)
Fixpoint walk_up (p : Folder) (path : list string) : outcome (list string) :=
  match p with
  | mkFolder _ None _ _ => Raise (AttributeError "folder_name")
  | mkFolder _ (Some n) pp _ =>
      match pp with
      | None => Ret (path ++ [n])
      | Some q => walk_up q (path ++ [n])
      end
  end.

(** [Folder.folder_path] *)
Definition folder_path (self : Folder) : outcome string :=
  match folder_name self with
  | None => Raise (AttributeError "folder_name")
  | Some n =>
      let walked := match parent self with
                    | None => Ret [n]
                    | Some p => walk_up p [n]
                    end in
      match walked with
      | Raise e => Raise e
      | Ret path => Ret (Py.join "/" (rev path))
      end
  end.

(** [Folder.create_folder] *)
Definition create_folder (self : Folder) (w : World) : outcome unit * World :=
  match folder_path self with
  | Raise e => (Raise e, w)
  | Ret path =>
      let w1 := match os_mkdir path w with
                | (Raise err, w') => print (str_exn err) w'
                | (Ret _, w') => w'
                end in
      match readme_text self with
      | None => (Ret tt, w1)
      | Some text =>
          let name := default "" (folder_name self) in
          (Ret tt,
           write_file (path +:+ "/README_" +:+ Py.capitalize name +:+ ".md")
             ("##" +:+ wrap (Py.capitalize name) "**" +:+ Py.nl +:+ Py.nl
                +:+ "Folder path: " +:+ wrap path "`" +:+ Py.nl +:+ Py.nl
                +:+ text) w1)
      end
  end.

(** [Folder.__init__]: the call [Folder(folder_name, parent, readme_text)].
    It returns the new object, or raises what [create_folder] raises. *)
Definition Folder__init__ (name : string) (parent : option Folder)
    (readme_text : option string) (w : World) : outcome Folder * World :=
  let '(o, w) := alloc w in
  match checked_name name parent with
  | Raise err =>
      (Ret (mkFolder o None parent readme_text), report_init_error err w)
  | Ret n =>
      let self := mkFolder o (Some n) parent readme_text in
      match parent with
      | None => (Ret self, w)
      | Some _ =>
          match create_folder self w with
          | (Raise e, w') => (Raise e, w')
          | (Ret _, w') => (Ret self, w')
          end
      end
  end.

(** ** class ProjectTemplate *)

(** One row of the data frame [self._df]; [df.at[i, 'c']] is column [c] of
    row [i]. *)
Record Row := mkRow {
  col_folder_name : string;
  col_parent : string;
  col_readme_text : option string;
  col_minimal : bool
}.

Record ProjectTemplate := mkProjectTemplate {
  _df : list Row;
  _folder_tree : gmap string Folder
}.

(** [self._folder_tree[name] = folder] *)
Definition setitem (self : ProjectTemplate) (name : string) (folder : Folder)
  : ProjectTemplate :=
  mkProjectTemplate (_df self) (<[name := folder]> (_folder_tree self)).

(** [ProjectTemplate.__init__], from the rows read from the template file. *)
Definition ProjectTemplate__init__ (rows : list Row) (w : World)
  : outcome ProjectTemplate * World :=
  match Folder__init__ "root" None None w with
  | (Raise e, w') => (Raise e, w')
  | (Ret root, w') => (Ret (mkProjectTemplate rows {["root" := root]}), w')
  end.

(** [ProjectTemplate.n_folders] *)
Definition n_folders (self : ProjectTemplate) : nat :=
  size (_folder_tree self).

(** [ProjectTemplate._add_folder_to_tree] *)
Definition _add_folder_to_tree (df_index : nat) (self : ProjectTemplate)
    (w : World) : outcome unit * ProjectTemplate * World :=
  match _df self !! df_index with
  | None => (Raise (IndexKeyError df_index), self, w)
  | Some row =>
      let name := col_folder_name row in
      match _folder_tree self !! col_parent row with
      | None => (Raise (KeyError (col_parent row)), self, w)
      | Some p =>
          match Folder__init__ (col_folder_name row) (Some p)
                  (col_readme_text row) w with
          | (Raise e, w') => (Raise e, self, w')
          | (Ret folder, w') => (Ret tt, setitem self name folder, w')
          end
      end
  end.

(** The test [not minimal or (df.at[i, 'minimal'] and minimal)]. *)
Definition included (minimal : bool) (row : Row) : bool :=
  negb minimal || (col_minimal row && minimal).

Definition msg_not_in_template (parent : string) : string :=
  "Parent folder " +:+ parent +:+ " does not exist in the template file".

Definition msg_circular (parent : string) : string :=
  "The parent of folder " +:+ parent
    +:+ " refers to a child folder already explored".

Definition msg_minimal (parent : string) : string :=
  "Minimal template required." +:+ "Parent folder " +:+ parent
    +:+ " is not included in the minimal project template.".

(** [ProjectTemplate._check_parent_branch_exists]. [fuel] bounds the depth
    of the recursion; [None] is returned when it runs out. The function
    never raises: its [finally: return in_dict_flag] discards whatever is
    raised inside the [except KeyError] block, where the flag is still
    [True]. This is how the outcome of [_add_folder_to_tree] is dropped,
    and what the two lookups that cannot fail ([names.index] of a member,
    [df.at] of its position) would amount to. [explored] is the list the
    caller passes; the caller never reads it again, so the [append] is
    modelled by passing the longer list on. *)
Fixpoint _check_parent_branch_exists (fuel : nat) (minimal : bool)
    (parent : string) (explored : list string) (self : ProjectTemplate)
    (w : World) : option (bool * ProjectTemplate * World) :=
  match _folder_tree self !! parent with
  | Some _ => Some (true, self, w)
  | None =>
      let names := map col_folder_name (_df self) in
      if negb (bool_decide (parent ∈ names)) then
        Some (false, self, print (msg_not_in_template parent) w)
      else if bool_decide (parent ∈ explored) then
        Some (false, self, print (msg_circular parent) w)
      else
        let explored := explored ++ [parent] in
        match Py.index parent names with
        | None => Some (true, self, w)
        | Some index =>
            match _df self !! index with
            | None => Some (true, self, w)
            | Some row =>
                if included minimal row then
                  match fuel with
                  | 0 => None
                  | S fuel' =>
                      match _check_parent_branch_exists fuel' minimal
                              (col_parent row) explored self w with
                      | None => None
                      | Some (false, self', w') => Some (false, self', w')
                      | Some (true, self', w') =>
                          let '(_, self'', w'') :=
                            _add_folder_to_tree index self' w' in
                          Some (true, self'', w'')
                      end
                  end
                else Some (false, self, print (msg_minimal parent) w)
            end
        end
  end.

(** The body of the [for] loop of [create_project_tree], over the row
    indices [rows] still to visit. *)
Fixpoint for_rows (minimal : bool) (rows : list nat) (self : ProjectTemplate)
    (w : World) : option (outcome bool * ProjectTemplate * World) :=
  match rows with
  | [] => Some (Ret true, self, w)
  | i :: rest =>
      match _df self !! i with
      | None => Some (Raise (IndexKeyError i), self, w)
      | Some row =>
          if included minimal row then
            match _check_parent_branch_exists (length (_df self)) minimal
                    (col_parent row) [col_folder_name row] self w with
            | None => None
            | Some (false, self', w') => Some (Ret false, self', w')
            | Some (true, self', w') =>
                match _add_folder_to_tree i self' w' with
                | (Raise e, self'', w'') => Some (Raise e, self'', w'')
                | (Ret _, self'', w'') => for_rows minimal rest self'' w''
                end
            end
          else for_rows minimal rest self w
      end
  end.

(** [ProjectTemplate.create_project_tree] *)
Definition create_project_tree (minimal : bool) (self : ProjectTemplate)
    (w : World) : option (outcome bool * ProjectTemplate * World) :=
  for_rows minimal (seq 0 (length (_df self))) self w.

(** A new builder for [rows] followed by [create_project_tree(minimal)]. *)
Definition build (rows : list Row) (minimal : bool) (w : World)
  : option (outcome bool * ProjectTemplate * World) :=
  match ProjectTemplate__init__ rows w with
  | (Raise e, w') => Some (Raise e, mkProjectTemplate rows ∅, w')
  | (Ret self, w') => create_project_tree minimal self w'
  end.

(** The world of a run in an empty project directory. *)
Definition empty_dir : World := mkWorld {["."]} ∅ [] 0.

(** ** Vocabulary of the specification *)

(** A name that passes both checks of [Folder.__init__]. *)
Definition valid_name (name : string) : bool :=
  negb (has_reserved_char name) && negb (has_reserved_name name).

(** Every node from [f] up to its root has the attribute [folder_name]. *)
Fixpoint named (f : Folder) : bool :=
  match f with
  | mkFolder _ None _ _ => false
  | mkFolder _ (Some _) None _ => true
  | mkFolder _ (Some _) (Some p) _ => named p
  end.

(** The nodes from the root down to [f], following [parent]. *)
Fixpoint lineage (f : Folder) : list Folder :=
  match f with
  | mkFolder _ _ None _ => [f]
  | mkFolder _ _ (Some p) _ => lineage p ++ [f]
  end.

(** The objects that a completed [Folder(...)] call leaves with a name. *)
Inductive materialized : Folder → Prop :=
| materialized_root name readme w f w' :
    Folder__init__ name None readme w = (Ret f, w') →
    is_Some (folder_name f) →
    materialized f
| materialized_child name p readme w f w' :
    materialized p →
    Folder__init__ name (Some p) readme w = (Ret f, w') →
    is_Some (folder_name f) →
    materialized f.

(** A folder without its identity: what two runs can be compared on. *)
Inductive Shape :=
| mkShape (sname : option string) (sparent : option Shape)
    (sreadme : option string).

Fixpoint shape (f : Folder) : Shape :=
  match f with
  | mkFolder _ n None r => mkShape n None r
  | mkFolder _ n (Some p) r => mkShape n (Some (shape p)) r
  end.

Fixpoint snamed (s : Shape) : bool :=
  match s with
  | mkShape None _ _ => false
  | mkShape (Some _) None _ => true
  | mkShape (Some _) (Some p) _ => snamed p
  end.

Fixpoint sdepth (s : Shape) : nat :=
  match s with
  | mkShape _ None _ => 0
  | mkShape _ (Some p) _ => S (sdepth p)
  end.

Definition names (df : list Row) : list string := map col_folder_name df.

(** [child_of df a b]: some row declares folder [a] with parent [b]. *)
Definition child_of (df : list Row) (a b : string) : Prop :=
  ∃ row, row ∈ df ∧ col_folder_name row = a ∧ col_parent row = b.

(** No folder of the template is its own ancestor. *)
Definition acyclic (df : list Row) : Prop :=
  ∀ k, ¬ tc (child_of df) k k.

(** Every parent named by a row is a row's folder or the root key. *)
Definition parents_defined (df : list Row) : Prop :=
  ∀ row, row ∈ df → col_parent row = "root" ∨ col_parent row ∈ names df.

(** The node that the template prescribes for a registry key: the root
    object under ["root"]; under a row's name, a node for that row whose
    parent is the node prescribed for the row's parent. A row with an
    invalid name gets a nameless node; a row with a valid name needs named
    ancestors, since its construction computes its path. *)
Inductive Canon (df : list Row) (minimal : bool) : string → Shape → Prop :=
| Canon_root : Canon df minimal "root" (mkShape (Some ".") None None)
| Canon_row row ps :
    row ∈ df →
    included minimal row = true →
    Canon df minimal (col_parent row) ps →
    (valid_name (col_folder_name row) = true → snamed ps = true) →
    Canon df minimal (col_folder_name row)
      (mkShape (if valid_name (col_folder_name row)
                then Some (col_folder_name row) else None)
         (Some ps) (col_readme_text row)).

(** Every registered node is the one the template prescribes for its key. *)
Definition TreeOk (minimal : bool) (self : ProjectTemplate) : Prop :=
  ∀ k f, _folder_tree self !! k = Some f →
         Canon (_df self) minimal k (shape f).

(** Every registered node has a path: it and its ancestors have names. *)
Definition TreeNamed (self : ProjectTemplate) : Prop :=
  ∀ k f, _folder_tree self !! k = Some f → named f = true.

(** Two registries with the same keys and, under each key, the same node up
    to object identity: same name, README text and chain of ancestors. *)
Definition same_tree (t1 t2 : gmap string Folder) : Prop :=
  ∀ k, shape <$> (t1 !! k) = shape <$> (t2 !! k).

(** The names met by [walk_up], nearest first. *)
Fixpoint names_up (f : Folder) : list string :=
  match f with
  | mkFolder _ n None _ => [default "" n]
  | mkFolder _ n (Some p) _ => default "" n :: names_up p
  end.

(** The path of the node registered under [k], when there is one. *)
Definition path_of (self : ProjectTemplate) (k : string)
  : option (outcome string) :=
  folder_path <$> (_folder_tree self !! k).

(** The row that [names.index(k)] selects: the first one named [k]. *)
Definition row_named (df : list Row) (k : string) : option Row :=
  match Py.index k (names df) with
  | None => None
  | Some i => df !! i
  end.

(** The operations that touch the registry. *)
Inductive operation :=
| Add (df_index : nat)
| Check (minimal : bool) (parent : string) (explored : list string)
| Create (minimal : bool).

Definition run (op : operation) (self : ProjectTemplate) (w : World)
  : option (ProjectTemplate * World) :=
  match op with
  | Add i =>
      let '(_, self', w') := _add_folder_to_tree i self w in Some (self', w')
  | Check minimal parent explored =>
      match _check_parent_branch_exists (length (_df self)) minimal parent
              explored self w with
      | None => None
      | Some (_, self', w') => Some (self', w')
      end
  | Create minimal =>
      match create_project_tree minimal self w with
      | None => None
      | Some (_, self', w') => Some (self', w')
      end
  end.

(** ** The script's entry point *)

Definition msg_no_template : string :=
  "Template file not found in the root directory".

Definition msg_success (n : nat) : string :=
  "Project was successfully created with " +:+ pretty n +:+ " folders".

Definition msg_failure : string := "Project was not successfully created.".

(** The [if __name__ == '__main__'] block. [template] is what
    [pd.read_csv] finds: the rows of the file, or [None] when the file is
    missing. In that case [ProjectTemplate.__init__] prints a line, never
    assigns [self._df] and still creates the registry; the call of
    [create_project_tree] then raises [AttributeError] on [self._df]. *)
Definition main (template : option (list Row)) (w : World)
  : option (outcome unit * World) :=
  match template with
  | None =>
      match Folder__init__ "root" None None (print msg_no_template w) with
      | (Raise e, w1) => Some (Raise e, w1)
      | (Ret _, w1) => Some (Raise (AttributeError "_df"), w1)
      end
  | Some rows =>
      match ProjectTemplate__init__ rows w with
      | (Raise e, w1) => Some (Raise e, w1)
      | (Ret proj, w1) =>
          match create_project_tree false proj w1 with
          | None => None
          | Some (Raise e, _, w2) => Some (Raise e, w2)
          | Some (Ret true, proj', w2) =>
              Some (Ret tt, print (msg_success (n_folders proj')) w2)
          | Some (Ret false, _, w2) => Some (Ret tt, print msg_failure w2)
          end
      end
  end.

(** ** More vocabulary *)

(** [sub] occurs in [s] as a contiguous piece. *)
Definition occurs (sub s : string) : Prop :=
  ∃ pre post, s = pre +:+ sub +:+ post.

(** The second world holds everything the first one holds: its
    directories, its file names, its printed lines in the same order. *)
Definition extends (w w' : World) : Prop :=
  dirs w ⊆ dirs w'
  ∧ dom (files w) ⊆ dom (files w')
  ∧ stdout w `prefix_of` stdout w'
  ∧ next_oid w ≤ next_oid w'.

(** Every registered node below the root that has a path has its
    directory. *)
Definition DirsOk (self : ProjectTemplate) (w : World) : Prop :=
  ∀ k f p, _folder_tree self !! k = Some f → is_Some (parent f) →
           folder_path f = Ret p → p ∈ dirs w.

(** The rows that [create_project_tree(minimal)] treats as candidates. *)
Definition candidates (minimal : bool) (df : list Row) : list Row :=
  filter (λ row, included minimal row = true) df.

(** Two builders over the same rows whose registries agree up to object
    identity. *)
Definition alike (s1 s2 : ProjectTemplate) : Prop :=
  _df s1 = _df s2 ∧ same_tree (_folder_tree s1) (_folder_tree s2).

(** ** Templates and objects used as examples *)

(** A row with a README text. *)
Definition entry (name parent : string) (minimal : bool) : Row :=
  mkRow name parent (Some "notes") minimal.

Definition data_raw : list Row :=
  [mkRow "data" "root" None true; mkRow "raw" "data" None true].

Definition raw_data : list Row :=
  [mkRow "raw" "data" None true; mkRow "data" "root" None true].

Definition raw_first : list Row :=
  [entry "raw" "data" true; entry "data" "root" true].

Definition root_first : list Row :=
  [entry "root" "root" true; entry "a" "root" true].

Definition root_last : list Row :=
  [entry "a" "root" true; entry "root" "root" true].

Definition twice_a : list Row :=
  [entry "b" "root" true; entry "a" "root" true; entry "a" "b" true].

Definition twice_a_swapped : list Row :=
  [entry "a" "b" true; entry "a" "root" true; entry "b" "root" true].

Definition own_parent : list Row :=
  [entry "data" "root" true; entry "a" "a" true].

Definition cycle_AB (minA minB : bool) : list Row :=
  [entry "A" "B" minA; entry "B" "A" minB].

Definition excluded_parent : list Row :=
  [entry "data" "root" true; entry "c" "p" true; entry "p" "root" false].

Definition ghost_then_excluded : list Row :=
  [entry "x" "ghost" true; entry "c" "p" true; entry "p" "root" false].

Definition starred_then_excluded : list Row :=
  [entry "c0" "b" true; entry "b" "a*" true; entry "a*" "root" true;
   entry "c" "p" true; entry "p" "root" false].

Definition root_object : Folder := mkFolder 0 (Some ".") None None.

Definition after_root : World := mkWorld {["."]} ∅ [] 1.

Definition starred : list Row := [entry "a*b" "root" true].

Definition under_starred : list Row :=
  [entry "c" "b" true; entry "b" "a*" true; entry "a*" "root" true].

(** ** Facts about [Folder] *)

Lemma Folder_induction (P : Folder → Prop) :
  (∀ o n r, P (mkFolder o n None r)) →
  (∀ o n p r, P p → P (mkFolder o n (Some p) r)) →
  ∀ f, P f.
Proof.
  intros Hroot Hchild.
  fix IH 1. intros [o n [p|] r].
  - apply Hchild, IH.
  - apply Hroot.
Qed.

Lemma named_shape f : snamed (shape f) = named f.
Proof.
  induction f as [o n r|o n p r IH] using Folder_induction;
    destruct n; simpl; auto.
Qed.

Lemma walk_up_named p path :
  named p = true → walk_up p path = Ret (path ++ names_up p).
Proof.
  revert path.
  induction p as [o n r|o n p r IH] using Folder_induction; intros path;
    destruct n as [n|]; simpl; try discriminate; intros Hn.
  - reflexivity.
  - rewrite IH by assumption. by rewrite <- app_assoc.
Qed.

Lemma walk_up_unnamed p path :
  named p = false → walk_up p path = Raise (AttributeError "folder_name").
Proof.
  revert path.
  induction p as [o n r|o n p r IH] using Folder_induction; intros path;
    destruct n as [n|]; simpl; try discriminate; intros Hn; auto.
Qed.

Lemma folder_path_named f :
  named f = true →
  folder_path f = Ret (Py.join "/" (rev (names_up f))).
Proof.
  destruct f as [o [n|] [p|] r]; simpl; try discriminate; intros Hn.
  - unfold folder_path; simpl. by rewrite (walk_up_named p [n] Hn).
  - reflexivity.
Qed.

Lemma folder_path_unnamed f :
  named f = false →
  folder_path f = Raise (AttributeError "folder_name").
Proof.
  destruct f as [o [n|] [p|] r]; simpl; try discriminate; intros Hn;
    unfold folder_path; simpl; auto.
  by rewrite (walk_up_unnamed p [n] Hn).
Qed.

Lemma lineage_names f :
  named f = true →
  mapM folder_name (lineage f) = Some (rev (names_up f)).
Proof.
  induction f as [o n r|o n p r IH] using Folder_induction;
    destruct n as [n|]; simpl; try discriminate; intros Hn.
  - reflexivity.
  - apply mapM_Some_2, Forall2_app.
    + by apply mapM_Some_1, IH.
    + by constructor.
Qed.

Lemma checked_name_valid name parent :
  valid_name name = true →
  checked_name name parent =
    Ret (match parent with None => "." | Some _ => name end).
Proof.
  unfold valid_name, checked_name. intros H.
  apply andb_true_iff in H as [H1 H2].
  apply negb_true_iff in H1, H2. rewrite H1, H2. by destruct parent.
Qed.

Lemma checked_name_invalid name parent :
  valid_name name = false →
  checked_name name parent = Raise (Exception "ReservedCharError") ∨
  checked_name name parent = Raise (Exception "ReservedNameError").
Proof.
  unfold valid_name, checked_name. intros H.
  destruct (has_reserved_char name); [by left|].
  destruct (has_reserved_name name); [by right|]. discriminate.
Qed.

(** What [Folder(name, p, readme)] returns when it returns. *)
Lemma Folder_init_child_shape name p readme w f w' :
  Folder__init__ name (Some p) readme w = (Ret f, w') →
  shape f = mkShape (if valid_name name then Some name else None)
              (Some (shape p)) readme
  ∧ (valid_name name = true → named p = true).
Proof.
  unfold Folder__init__. simpl.
  destruct (valid_name name) eqn:Hv.
  - rewrite (checked_name_valid _ _ Hv). unfold create_folder.
    destruct (named p) eqn:Hp.
    + rewrite folder_path_named by (simpl; exact Hp).
      destruct readme; intros [= <- _]; auto.
    + rewrite folder_path_unnamed by (simpl; exact Hp). discriminate.
  - destruct (checked_name_invalid name (Some p) Hv) as [-> | ->];
      intros [= <- _]; split; auto; discriminate.
Qed.

(** [Folder(name, p, readme)] returns whenever the name is invalid or the
    parent has a path. *)
Lemma Folder_init_child_returns name p readme w :
  (valid_name name = true → named p = true) →
  ∃ f w', Folder__init__ name (Some p) readme w = (Ret f, w').
Proof.
  intros Hp. unfold Folder__init__. simpl.
  destruct (valid_name name) eqn:Hv.
  - rewrite (checked_name_valid _ _ Hv). unfold create_folder.
    rewrite folder_path_named by (simpl; auto).
    destruct readme; eauto.
  - destruct (checked_name_invalid name (Some p) Hv) as [-> | ->]; eauto.
Qed.

Lemma ProjectTemplate_init_eq rows w :
  ProjectTemplate__init__ rows w =
    (Ret (mkProjectTemplate rows
            {["root" := mkFolder (next_oid w) (Some ".") None None]}),
     mkWorld (dirs w) (files w) (stdout w) (S (next_oid w))).
Proof. reflexivity. Qed.

(** ** The registry under [_add_folder_to_tree] and
       [_check_parent_branch_exists] *)

Lemma add_df i self w o self' w' :
  _add_folder_to_tree i self w = (o, self', w') → _df self' = _df self.
Proof.
  unfold _add_folder_to_tree.
  destruct (_df self !! i) as [row|]; [|by intros [= _ <- _]].
  destruct (_folder_tree self !! col_parent row) as [p|];
    [|by intros [= _ <- _]].
  destruct (Folder__init__ _ _ _ _) as [[f|e] w1]; by intros [= _ <- _].
Qed.

Lemma add_keys i self w o self' w' k :
  _add_folder_to_tree i self w = (o, self', w') →
  is_Some (_folder_tree self !! k) → is_Some (_folder_tree self' !! k).
Proof.
  unfold _add_folder_to_tree.
  destruct (_df self !! i) as [row|]; [|by intros [= _ <- _]].
  destruct (_folder_tree self !! col_parent row) as [p|];
    [|by intros [= _ <- _]].
  destruct (Folder__init__ _ _ _ _) as [[f|e] w1]; intros [= _ <- _]; auto.
  intros Hk. simpl. rewrite lookup_insert. case_decide; eauto.
Qed.

Lemma add_ok minimal i self w o self' w' row :
  _df self !! i = Some row →
  included minimal row = true →
  TreeOk minimal self →
  _add_folder_to_tree i self w = (o, self', w') →
  TreeOk minimal self'.
Proof.
  intros Hi Hinc Hok. unfold _add_folder_to_tree. rewrite Hi.
  destruct (_folder_tree self !! col_parent row) as [p|] eqn:Hp;
    [|by intros [= _ <- _]].
  destruct (Folder__init__ _ _ _ _) as [[f|e] w1] eqn:Hf;
    intros [= _ <- _]; auto.
  apply Folder_init_child_shape in Hf as [Hs Hn].
  intros k g. unfold setitem; simpl. rewrite lookup_insert.
  case_decide as Hk.
  - intros [= <-]. subst k. rewrite Hs.
    apply Canon_row; auto.
    + by eapply list_elem_of_lookup_2.
    + intros Hv. rewrite named_shape. auto.
  - apply Hok.
Qed.

(** When [_add_folder_to_tree] returns, the row's name is registered. *)
Lemma add_registers i self w self' w' row :
  _df self !! i = Some row →
  _add_folder_to_tree i self w = (Ret tt, self', w') →
  is_Some (_folder_tree self' !! col_folder_name row).
Proof.
  intros Hi. unfold _add_folder_to_tree. rewrite Hi.
  destruct (_folder_tree self !! col_parent row) as [p|]; [|discriminate].
  destruct (Folder__init__ _ _ _ _) as [[f|e] w1]; intros [= <- _].
  simpl. rewrite lookup_insert_eq. eauto.
Qed.

Lemma check_preserves minimal fuel :
  ∀ parent explored self w b self' w',
    _check_parent_branch_exists fuel minimal parent explored self w
      = Some (b, self', w') →
    _df self' = _df self
    ∧ (∀ k, is_Some (_folder_tree self !! k) →
            is_Some (_folder_tree self' !! k))
    ∧ (TreeOk minimal self → TreeOk minimal self').
Proof.
  induction fuel as [|fuel IH]; intros parent explored self w b self' w';
    simpl.
  all: destruct (_folder_tree self !! parent) as [pf|];
    [by intros [= _ <- _]|].
  all: destruct (bool_decide (parent ∈ map col_folder_name (_df self)));
    simpl; [|by intros [= _ <- _]].
  all: destruct (bool_decide (parent ∈ explored));
    [by intros [= _ <- _]|].
  all: destruct (Py.index _ _) as [index|]; [|by intros [= _ <- _]].
  all: destruct (_df self !! index) as [row|] eqn:Hrow;
    [|by intros [= _ <- _]].
  all: destruct (included minimal row) eqn:Hinc; [|by intros [= _ <- _]].
  - discriminate.
  - destruct (_check_parent_branch_exists _ _ _ _ _ _)
      as [[[[] self1] w1]|] eqn:Hrec; [| |discriminate].
    + destruct (_add_folder_to_tree index self1 w1) as [[o self2] w2] eqn:Ha.
      intros [= _ <- _].
      apply IH in Hrec as (Hdf & Hkeys & Hok).
      split; [|split].
      * rewrite <- Hdf. eapply add_df, Ha.
      * intros k Hk. eapply add_keys; [exact Ha|]. auto.
      * intros H. eapply add_ok; [| |apply Hok, H|exact Ha]; eauto.
        by rewrite Hdf.
    + intros [= _ <- _]. by apply IH in Hrec.
Qed.

(** *** Termination: the recursion is bounded by the number of rows *)

Lemma explored_bound (df : list Row) (explored : list string) parent :
  NoDup explored →
  (∀ e, e ∈ explored → e ∈ names df) →
  parent ∈ names df →
  parent ∉ explored →
  NoDup (explored ++ [parent])
  ∧ (∀ e, e ∈ explored ++ [parent] → e ∈ names df)
  ∧ S (length explored) ≤ length df.
Proof.
  intros Hnd Hsub Hp Hnp.
  assert (Hnd' : NoDup (explored ++ [parent])).
  { apply NoDup_app. repeat split; auto.
    - intros x Hx ->%list_elem_of_singleton. auto.
    - apply NoDup_singleton. }
  assert (Hsub' : ∀ e, e ∈ explored ++ [parent] → e ∈ names df).
  { intros e [He | ->%list_elem_of_singleton]%elem_of_app; auto. }
  repeat split; auto.
  pose proof (submseteq_length _ _ (NoDup_submseteq _ _ Hnd' Hsub')) as Hl.
  rewrite length_app in Hl. simpl in Hl. unfold names in Hl.
  rewrite length_map in Hl. lia.
Qed.

Lemma check_total minimal fuel :
  ∀ parent explored self w,
    NoDup explored →
    (∀ e, e ∈ explored → e ∈ names (_df self)) →
    length (_df self) ≤ fuel + length explored →
    is_Some (_check_parent_branch_exists fuel minimal parent explored self w).
Proof.
  induction fuel as [|fuel IH]; intros parent explored self w Hnd Hsub Hlen;
    simpl.
  all: destruct (_folder_tree self !! parent) as [pf|]; [by eauto|].
  all: destruct (bool_decide (parent ∈ map col_folder_name (_df self)))
    eqn:Hin; simpl; [|by eauto].
  all: destruct (bool_decide (parent ∈ explored)) eqn:Hex; [by eauto|].
  all: apply bool_decide_eq_true in Hin; apply bool_decide_eq_false in Hex.
  all: destruct (explored_bound _ _ _ Hnd Hsub Hin Hex) as (Hnd' & Hsub' & Hb).
  all: destruct (Py.index _ _) as [index|]; [|by eauto].
  all: destruct (_df self !! index) as [row|]; [|by eauto].
  all: destruct (included minimal row); [|by eauto].
  - lia.
  - destruct (IH (col_parent row) (explored ++ [parent]) self w)
      as [[[b self1] w1] Hrec]; auto.
    { rewrite length_app. simpl. lia. }
    rewrite Hrec. destruct b; [|by eauto].
    destruct (_add_folder_to_tree index self1 w1) as [[o self2] w2]. eauto.
Qed.

Lemma check_top_total minimal row self w :
  row ∈ _df self →
  is_Some (_check_parent_branch_exists (length (_df self)) minimal
             (col_parent row) [col_folder_name row] self w).
Proof.
  intros Hrow. apply check_total.
  - apply NoDup_singleton.
  - intros e ->%list_elem_of_singleton. unfold names.
    apply list_elem_of_fmap. eauto.
  - simpl. lia.
Qed.

(** *** The loop of [create_project_tree] *)

Lemma for_rows_preserves minimal rows :
  ∀ self w o self' w',
    for_rows minimal rows self w = Some (o, self', w') →
    _df self' = _df self
    ∧ (∀ k, is_Some (_folder_tree self !! k) →
            is_Some (_folder_tree self' !! k))
    ∧ (TreeOk minimal self → TreeOk minimal self')
    ∧ (o = Ret true →
       ∀ i row, i ∈ rows → _df self !! i = Some row →
                included minimal row = true →
                is_Some (_folder_tree self' !! col_folder_name row)).
Proof.
  induction rows as [|i rows IH]; intros self w o self' w'; simpl.
  { intros [= <- <- <-]. repeat split; auto.
    intros _ i row Hi. by apply elem_of_nil in Hi. }
  destruct (_df self !! i) as [row|] eqn:Hrow.
  2:{ intros [= <- <- <-]. repeat split; auto. discriminate. }
  destruct (included minimal row) eqn:Hinc.
  2:{ intros H. apply IH in H as (Hdf & Hkeys & Hok & Hreg).
      repeat split; auto.
      intros Ho j r [-> | Hj]%elem_of_cons Hr Hi; [congruence|]. eauto. }
  destruct (_check_parent_branch_exists _ _ _ _ _ _)
    as [[[[] self1] w1]|] eqn:Hc; [| |discriminate].
  2:{ intros [= <- <- <-].
      apply check_preserves in Hc as (Hdf & Hkeys & Hok).
      repeat split; auto. discriminate. }
  apply check_preserves in Hc as (Hdf1 & Hkeys1 & Hok1).
  destruct (_add_folder_to_tree i self1 w1) as [[[[]|e] self2] w2] eqn:Ha.
  2:{ intros [= <- <- <-]. repeat split.
      - rewrite <- Hdf1. eapply add_df, Ha.
      - intros k Hk. eapply add_keys; eauto.
      - intros H. eapply add_ok; [| |apply Hok1, H|exact Ha]; eauto.
        by rewrite Hdf1.
      - discriminate. }
  pose proof (add_df _ _ _ _ _ _ Ha) as Hdf2.
  intros H. apply IH in H as (Hdf & Hkeys & Hok & Hreg).
  repeat split.
  - congruence.
  - intros k Hk. apply Hkeys. eapply add_keys; eauto.
  - intros H. apply Hok. eapply add_ok; [| |apply Hok1, H|exact Ha]; eauto.
    by rewrite Hdf1.
  - intros Ho j r [-> | Hj]%elem_of_cons Hr Hi.
    + assert (r = row) as -> by congruence.
      apply Hkeys. eapply add_registers; [|exact Ha]. by rewrite Hdf1.
    + eapply Hreg; eauto. by rewrite Hdf2, Hdf1.
Qed.

Lemma for_rows_total minimal rows :
  ∀ self w, is_Some (for_rows minimal rows self w).
Proof.
  induction rows as [|i rows IH]; intros self w; simpl; [by eauto|].
  destruct (_df self !! i) as [row|] eqn:Hrow; [|by eauto].
  destruct (included minimal row); [|by apply IH].
  destruct (check_top_total minimal row self w) as [[[b self1] w1] Hc].
  { by eapply list_elem_of_lookup_2. }
  rewrite Hc. destruct b; [|by eauto].
  destruct (_add_folder_to_tree i self1 w1) as [[[[]|e] self2] w2];
    [apply IH|by eauto].
Qed.

Lemma for_rows_app minimal rows1 rows2 :
  ∀ self w,
    for_rows minimal (rows1 ++ rows2) self w =
      match for_rows minimal rows1 self w with
      | Some (Ret true, self', w') => for_rows minimal rows2 self' w'
      | other => other
      end.
Proof.
  induction rows1 as [|i rows1 IH]; intros self w; simpl; [done|].
  destruct (_df self !! i) as [row|]; [|done].
  destruct (included minimal row); [|by apply IH].
  destruct (_check_parent_branch_exists _ _ _ _ _ _)
    as [[[[] self1] w1]|]; [| |done]; [|done].
  destruct (_add_folder_to_tree i self1 w1) as [[[[]|e] self2] w2];
    [apply IH|done].
Qed.

(** [create_project_tree] always returns or raises: the fuel given to
    [_check_parent_branch_exists] never runs out. *)
Lemma create_project_tree_total minimal self w :
  is_Some (create_project_tree minimal self w).
Proof. apply for_rows_total. Qed.

Lemma build_total rows minimal w : is_Some (build rows minimal w).
Proof. unfold build. rewrite ProjectTemplate_init_eq. apply for_rows_total. Qed.

(** ** Templates with distinct names *)

Lemma index_Some x (l : list string) :
  x ∈ l → ∃ i, Py.index x l = Some i.
Proof.
  induction l as [|y l IH]; [by intros ?%elem_of_nil|].
  intros Hx. simpl. case_decide; [by eauto|].
  apply elem_of_cons in Hx as [->|Hx]; [done|].
  destruct (IH Hx) as [i ->]. simpl. eauto.
Qed.

Lemma index_row x (df : list Row) i :
  Py.index x (names df) = Some i →
  ∃ row, df !! i = Some row ∧ col_folder_name row = x.
Proof.
  revert i. induction df as [|r df IH]; intros i; simpl; [done|].
  case_decide as Hr.
  - intros [= <-]. eauto.
  - destruct (Py.index x (names df)) as [j|] eqn:Hj; [|done].
    intros [= <-]. destruct (IH j eq_refl) as (row & ? & ?). eauto.
Qed.

Section distinct.
Context (df : list Row).
Hypothesis names_distinct : NoDup (names df).

Lemma row_unique r1 r2 :
  r1 ∈ df → r2 ∈ df → col_folder_name r1 = col_folder_name r2 → r1 = r2.
Proof using names_distinct.
  clear -names_distinct. unfold names in names_distinct.
  induction df as [|r l IH]; [by intros ?%elem_of_nil|].
  apply NoDup_cons in names_distinct as [Hr Hl].
  intros [->|H1]%elem_of_cons [->|H2]%elem_of_cons Heq; auto.
  - exfalso. apply Hr. rewrite Heq. apply list_elem_of_fmap. eauto.
  - exfalso. apply Hr. rewrite <- Heq. apply list_elem_of_fmap. eauto.
Qed.

Lemma index_of_row row :
  row ∈ df →
  ∃ i, Py.index (col_folder_name row) (names df) = Some i
       ∧ df !! i = Some row.
Proof using names_distinct.
  intros Hrow.
  destruct (index_Some (col_folder_name row) (names df)) as [i Hi].
  { apply list_elem_of_fmap. eauto. }
  exists i. split; [done|].
  apply index_row in Hi as (r & Hr & Hn).
  rewrite Hr. f_equal. apply row_unique; auto.
  by eapply list_elem_of_lookup_2.
Qed.

Hypothesis root_free : "root" ∉ names df.

(** With distinct names, none of them the root key, the template
    prescribes at most one node per key. *)
Lemma Canon_functional minimal k s1 s2 :
  Canon df minimal k s1 → Canon df minimal k s2 → s1 = s2.
Proof using names_distinct root_free.
  intros H1. revert s2.
  induction H1 as [|row ps Hrow Hinc Hp IH Hv]; intros s2 H2.
  - inversion H2 as [|row ps Hrow Hinc Hp Hv Hk]; [done|].
    exfalso. apply root_free. rewrite <- Hk.
    apply list_elem_of_fmap. eauto.
  - inversion H2 as [Hk|row' ps' Hrow' Hinc' Hp' Hv' Hk].
    + exfalso. apply root_free. rewrite Hk.
      apply list_elem_of_fmap. eauto.
    + assert (row' = row) as -> by (by apply row_unique).
      by rewrite (IH _ Hp').
Qed.
End distinct.

(** *** Resolution succeeds on a prescribed parent *)

Lemma check_canon minimal parent sp :
  ∀ df, Canon df minimal parent sp →
  NoDup (names df) → "root" ∉ names df →
  ∀ fuel explored self w,
    _df self = df →
    TreeOk minimal self →
    is_Some (_folder_tree self !! "root") →
    NoDup explored →
    (∀ e, e ∈ explored → e ∈ names df) →
    length df ≤ fuel + length explored →
    (∀ e, e ∈ explored →
          ∃ se, Canon df minimal e se ∧ sdepth sp < sdepth se) →
    ∃ self' w',
      _check_parent_branch_exists fuel minimal parent explored self w
        = Some (true, self', w')
      ∧ is_Some (_folder_tree self' !! parent).
Proof.
  intros df Hcanon Hnd Hroot.
  induction Hcanon as [|row ps Hrow Hinc Hp IH Hv];
    intros fuel explored self w Hdf Hok Hr Hex Hsub Hlen Hdeep.
  { destruct Hr as [r Hr]. destruct fuel; simpl; rewrite Hr; eauto. }
  set (name := col_folder_name row) in *.
  assert (Hname : name ∈ names df) by (apply list_elem_of_fmap; eauto).
  assert (Hfresh : name ∉ explored).
  { intros (se & Hse & Hlt)%Hdeep.
    pose proof (Canon_row _ _ _ _ Hrow Hinc Hp Hv) as Hme.
    rewrite (Canon_functional df Hnd Hroot _ _ _ _ Hse Hme) in Hlt.
    by apply Nat.lt_irrefl in Hlt. }
  destruct (explored_bound _ _ _ Hex Hsub Hname Hfresh)
    as (Hex' & Hsub' & Hb).
  destruct (index_of_row df Hnd row Hrow) as (index & Hidx & Hat).
  fold name in Hidx.
  assert (Hstep : ∀ fuel',
    (∃ self1 w1 pf,
        _check_parent_branch_exists fuel' minimal (col_parent row)
          (explored ++ [name]) self w = Some (true, self1, w1)
        ∧ _folder_tree self1 !! col_parent row = Some pf) →
    ∃ self' w',
      match _check_parent_branch_exists fuel' minimal (col_parent row)
              (explored ++ [name]) self w with
      | None => None
      | Some (false, self', w') => Some (false, self', w')
      | Some (true, self', w') =>
          let '(_, self'', w'') := _add_folder_to_tree index self' w' in
          Some (true, self'', w'')
      end = Some (true, self', w')
      ∧ is_Some (_folder_tree self' !! name)).
  { intros fuel' (self1 & w1 & pf & Hrec & Hpf). rewrite Hrec.
    apply check_preserves in Hrec as (Hdf1 & _ & Hok1).
    specialize (Hok1 Hok).
    pose proof (Hok1 _ _ Hpf) as Hcpf. rewrite Hdf1, Hdf in Hcpf.
    pose proof (Canon_functional df Hnd Hroot _ _ _ _ Hcpf Hp) as Hshape.
    destruct (Folder_init_child_returns name pf (col_readme_text row) w1)
      as (f & w2 & Hf).
    { intros Hvalid. rewrite <- named_shape, Hshape. auto. }
    unfold _add_folder_to_tree. rewrite Hdf1, Hdf, Hat, Hpf.
    fold name. rewrite Hf. do 2 eexists. split; [reflexivity|].
    simpl. rewrite lookup_insert_eq. eauto. }
  destruct (_folder_tree self !! name) as [g|] eqn:Hg.
  { destruct fuel; simpl; rewrite Hg; eauto. }
  destruct fuel as [|fuel]; simpl; rewrite Hg, Hdf; fold (names df).
  all: rewrite (bool_decide_eq_true_2 _ Hname); simpl.
  all: rewrite (bool_decide_eq_false_2 _ Hfresh).
  all: rewrite Hidx, Hat, Hinc.
  { lia. }
  apply Hstep.
  destruct (IH fuel (explored ++ [name]) self w) as (self1 & w1 & Hrec & Hin);
    auto.
  { rewrite length_app. simpl. lia. }
  { intros e [He | ->%list_elem_of_singleton]%elem_of_app.
    - destruct (Hdeep e He) as (se & Hse & Hlt). exists se.
      split; [done|]. simpl in Hlt. lia.
    - eexists. split; [by apply Canon_row|]. simpl. lia. }
  destruct Hin as [pf Hpf]. eauto 10.
Qed.

Lemma canon_key df minimal k s :
  Canon df minimal k s →
  k = "root"
  ∨ ∃ row, row ∈ df ∧ included minimal row = true ∧ col_folder_name row = k.
Proof. intros [|row ps Hrow Hinc _ _]; eauto. Qed.

Lemma add_canon minimal df i row s self w :
  NoDup (names df) → "root" ∉ names df →
  _df self = df →
  TreeOk minimal self →
  df !! i = Some row →
  Canon df minimal (col_folder_name row) s →
  is_Some (_folder_tree self !! col_parent row) →
  ∃ self' w', _add_folder_to_tree i self w = (Ret tt, self', w').
Proof.
  intros Hnd Hroot Hdf Hok Hat Hs [pf Hpf].
  assert (Hrow : row ∈ df) by (by eapply list_elem_of_lookup_2).
  assert (Hv : valid_name (col_folder_name row) = true → named pf = true).
  { inversion Hs as [Hk|row' ps Hrow' Hinc Hp Hv Hk].
    - exfalso. apply Hroot. rewrite Hk. apply list_elem_of_fmap. eauto.
    - assert (row' = row) as -> by (by apply (row_unique df Hnd)).
      pose proof (Hok _ _ Hpf) as Hcpf. rewrite Hdf in Hcpf.
      rewrite <- named_shape,
        (Canon_functional df Hnd Hroot _ _ _ _ Hcpf Hp). exact Hv. }
  destruct (Folder_init_child_returns (col_folder_name row) pf
              (col_readme_text row) w Hv) as (f & w2 & Hf).
  unfold _add_folder_to_tree. rewrite Hdf, Hat, Hpf, Hf. eauto.
Qed.

Lemma for_rows_canon minimal df :
  NoDup (names df) → "root" ∉ names df →
  (∀ row, row ∈ df → included minimal row = true →
          ∃ s, Canon df minimal (col_folder_name row) s) →
  ∀ rows self w,
    (∀ i, i ∈ rows → i < length df) →
    _df self = df →
    TreeOk minimal self →
    is_Some (_folder_tree self !! "root") →
    ∃ self' w', for_rows minimal rows self w = Some (Ret true, self', w').
Proof.
  intros Hnd Hroot Hall.
  induction rows as [|i rows IH]; intros self w Hlt Hdf Hok Hr; simpl;
    [by eauto|].
  destruct (lookup_lt_is_Some_2 df i) as [row Hat].
  { apply Hlt. by left. }
  assert (Hrow : row ∈ df) by (by eapply list_elem_of_lookup_2).
  assert (Hrest : ∀ j, j ∈ rows → j < length df).
  { intros j Hj. apply Hlt. by right. }
  rewrite Hdf, Hat. destruct (included minimal row) eqn:Hinc; [|by apply IH].
  destruct (Hall row Hrow Hinc) as [s Hs].
  assert (∃ ps, Canon df minimal (col_parent row) ps ∧ sdepth ps < sdepth s)
    as (ps & Hps & Hdepth).
  { inversion Hs as [Hk|row' ps Hrow' Hinc' Hp Hv Hk].
    - exfalso. apply Hroot. rewrite Hk. apply list_elem_of_fmap. eauto.
    - assert (row' = row) as -> by (by apply (row_unique df Hnd)).
      exists ps. split; [done|]. simpl. lia. }
  destruct (check_canon minimal _ _ df Hps Hnd Hroot (length df)
              [col_folder_name row] self w) as (self1 & w1 & Hc & Hin); auto.
  { apply NoDup_singleton. }
  { intros e ->%list_elem_of_singleton. apply list_elem_of_fmap. eauto. }
  { simpl. lia. }
  { intros e ->%list_elem_of_singleton. eauto. }
  rewrite Hc.
  apply check_preserves in Hc as (Hdf1 & Hkeys1 & Hok1).
  rewrite Hdf in Hdf1.
  destruct (add_canon minimal df i row s self1 w1) as (self2 & w2 & Ha); auto.
  rewrite Ha. apply IH; auto.
  - rewrite <- Hdf1. eapply add_df, Ha.
  - eapply add_ok; [| |apply Hok1, Hok|exact Ha]; eauto. by rewrite Hdf1.
  - eapply add_keys; [exact Ha|]. auto.
Qed.

(** The registry of a new builder. *)
Lemma fresh_TreeOk minimal rows o :
  TreeOk minimal
    (mkProjectTemplate rows {["root" := mkFolder o (Some ".") None None]}).
Proof.
  intros k f. simpl. rewrite lookup_singleton.
  case_decide; [|done]. intros [= <-]. subst k. apply Canon_root.
Qed.

(** After a successful run from a new builder the registry holds the root
    key and the names of the included rows, and nothing else. *)
Lemma build_keys rows minimal w self' w' :
  build rows minimal w = Some (Ret true, self', w') →
  _df self' = rows ∧ TreeOk minimal self'
  ∧ ∀ k, is_Some (_folder_tree self' !! k) ↔
         k = "root"
         ∨ ∃ row, row ∈ rows ∧ included minimal row = true
                  ∧ col_folder_name row = k.
Proof.
  unfold build. rewrite ProjectTemplate_init_eq. unfold create_project_tree.
  intros H. apply for_rows_preserves in H as (Hdf & Hkeys & Hok & Hreg).
  simpl in *. specialize (Hok (fresh_TreeOk _ _ _)).
  split; [done|]. split; [done|]. intros k. split.
  - intros [f Hf]. apply Hok in Hf. rewrite Hdf in Hf.
    by eapply canon_key.
  - intros [->|(row & Hrow & Hinc & <-)].
    + apply Hkeys. rewrite lookup_singleton_eq. eauto.
    + apply list_elem_of_lookup_1 in Hrow as [i Hi].
      eapply (Hreg eq_refl i); eauto.
      apply elem_of_seq. apply lookup_lt_Some in Hi. lia.
Qed.

(** A template whose included rows all have a prescribed node builds. *)
Lemma build_canon rows minimal w :
  NoDup (names rows) → "root" ∉ names rows →
  (∀ row, row ∈ rows → included minimal row = true →
          ∃ s, Canon rows minimal (col_folder_name row) s) →
  ∃ self' w', build rows minimal w = Some (Ret true, self', w').
Proof.
  intros Hnd Hroot Hall. unfold build. rewrite ProjectTemplate_init_eq.
  unfold create_project_tree.
  apply (for_rows_canon minimal rows Hnd Hroot Hall); simpl.
  - intros i Hi%elem_of_seq. lia.
  - done.
  - apply fresh_TreeOk.
  - rewrite lookup_singleton_eq. eauto.
Qed.

(** ** Templates without cycles *)

Lemma acyclic_of_rank (df : list Row) (rank : string → nat) :
  (∀ row, row ∈ df → rank (col_parent row) < rank (col_folder_name row)) →
  acyclic df.
Proof.
  intros Hrank.
  assert (Hlt : ∀ a b, tc (child_of df) a b → rank b < rank a).
  { intros a b H. induction H as [a b (row & Hrow & <- & <-)
                                  |a b c (row & Hrow & <- & <-) _ IH].
    - by apply Hrank.
    - specialize (Hrank row Hrow). lia. }
  intros k Hk%Hlt. lia.
Qed.

Section acyclic_template.
Context (df : list Row).
Hypothesis no_cycle : acyclic df.
Hypothesis defined : parents_defined df.
Hypothesis valid : Forall (λ n, valid_name n = true) (names df).

(** Walking up from [k] past the folders [seen] ends at the root key,
    which is therefore no row's name, and prescribes a named node. *)
Lemma walk_to_root n :
  ∀ seen k,
    length df ≤ n + length seen →
    NoDup seen →
    (∀ e, e ∈ seen → e ∈ names df) →
    (∀ e, e ∈ seen → tc (child_of df) e k) →
    k ∈ names df →
    ("root" ∉ names df)
    ∧ (∃ s, Canon df false k s ∧ snamed s = true).
Proof using no_cycle defined valid.
  induction n as [|n IH]; intros seen k Hlen Hnd Hsub Htc Hk.
  all: assert (Hfresh : k ∉ seen) by (intros H%Htc; by apply no_cycle in H).
  all: destruct (explored_bound _ _ _ Hnd Hsub Hk Hfresh)
    as (Hnd' & Hsub' & Hb).
  { lia. }
  pose proof Hk as Hk'.
  apply list_elem_of_fmap in Hk' as (row & -> & Hrow).
  assert (Hvalid : valid_name (col_folder_name row) = true).
  { rewrite Forall_forall in valid. apply valid.
    apply list_elem_of_fmap. eauto. }
  assert (Hstep : child_of df (col_folder_name row) (col_parent row))
    by (exists row; auto).
  assert (Hup : ∀ ps, Canon df false (col_parent row) ps →
                      snamed ps = true →
                      ∃ s, Canon df false (col_folder_name row) s
                           ∧ snamed s = true).
  { intros ps Hps Hn. eexists. split.
    - apply Canon_row; eauto.
    - rewrite Hvalid. simpl. exact Hn. }
  destruct (decide (col_parent row ∈ names df)) as [Hp|Hp].
  - destruct (IH (seen ++ [col_folder_name row]) (col_parent row))
      as (Hroot & ps & Hps & Hn); auto.
    { rewrite length_app. simpl. lia. }
    { intros e [He | ->%list_elem_of_singleton]%elem_of_app.
      - eapply tc_r; eauto.
      - by apply tc_once. }
    split; eauto.
  - destruct (defined row Hrow) as [Hr|]; [|done].
    split; [by rewrite <- Hr|].
    apply (Hup (mkShape (Some ".") None None)); [|done].
    rewrite Hr. apply Canon_root.
Qed.

Lemma acyclic_root_free : "root" ∉ names df.
Proof using no_cycle defined valid.
  intros Hr.
  destruct (walk_to_root (length df) [] "root") as [Hroot _]; auto.
  - simpl. lia.
  - apply NoDup_nil_2.
  - intros e He. by apply elem_of_nil in He.
  - intros e He. by apply elem_of_nil in He.
Qed.

Lemma acyclic_canon row :
  row ∈ df → ∃ s, Canon df false (col_folder_name row) s.
Proof using no_cycle defined valid.
  intros Hrow.
  destruct (walk_to_root (length df) [] (col_folder_name row))
    as (_ & s & Hs & _); eauto.
  - simpl. lia.
  - apply NoDup_nil_2.
  - intros e He. by apply elem_of_nil in He.
  - intros e He. by apply elem_of_nil in He.
  - apply list_elem_of_fmap. eauto.
Qed.
End acyclic_template.

(** The number of entries once the keys are the root and the row names. *)
Lemma registry_size (t : gmap string Folder) (l : list string) :
  NoDup l → "root" ∉ l →
  (∀ k, is_Some (t !! k) ↔ k = "root" ∨ k ∈ l) →
  size t = length l + 1.
Proof.
  intros Hnd Hroot Hkeys.
  assert (Hdom : dom t = {["root"]} ∪ list_to_set l).
  { apply set_eq. intros k. rewrite elem_of_dom, Hkeys.
    rewrite elem_of_union, elem_of_singleton, elem_of_list_to_set. done. }
  rewrite <- size_dom, Hdom, size_union.
  - rewrite size_singleton, size_list_to_set by done. lia.
  - intros k ->%elem_of_singleton Hk%elem_of_list_to_set. done.
Qed.


Lemma data_raw_acyclic : acyclic data_raw.
Proof.
  apply (acyclic_of_rank _ (λ k, if decide (k = "raw") then 2
                                 else if decide (k = "data") then 1 else 0)).
  intros row Hrow. unfold data_raw in Hrow.
  repeat (apply elem_of_cons in Hrow as [->|Hrow]); [| |by apply elem_of_nil in Hrow];
    vm_compute; lia.
Qed.

Lemma data_raw_defined : parents_defined data_raw.
Proof.
  intros row Hrow. unfold data_raw in Hrow.
  repeat (apply elem_of_cons in Hrow as [->|Hrow]);
    [by left|right|by apply elem_of_nil in Hrow].
  simpl. apply elem_of_cons. by left.
Qed.


(** ** Order of the rows *)

Lemma Canon_perm df df' minimal k s :
  df ≡ₚ df' → Canon df minimal k s → Canon df' minimal k s.
Proof.
  intros Hperm H.
  induction H as [|row ps Hrow Hinc Hp IH Hv]; [apply Canon_root|].
  apply Canon_row; auto. by rewrite <- Hperm.
Qed.

(** C6, as the code has it. For a template with distinct folder names, none
    of them the root key ["root"], that builds successfully, every
    reordering of the rows builds successfully too and ends with the same
    registry: the same keys and, under each key, a node with the same name,
    README text and chain of ancestors. *)
Theorem build_order_independent (rows rows' : list Row) (minimal : bool)
    (w w' : World) (self1 : ProjectTemplate) (w1 : World) :
  NoDup (names rows) →
  "root" ∉ names rows →
  rows ≡ₚ rows' →
  build rows minimal w = Some (Ret true, self1, w1) →
  ∃ self2 w2,
    build rows' minimal w' = Some (Ret true, self2, w2)
    ∧ same_tree (_folder_tree self1) (_folder_tree self2).
Proof.
  intros Hnd Hroot Hperm Hb1.
  assert (Hnd' : NoDup (names rows')) by (unfold names; by rewrite <- Hperm).
  assert (Hroot' : "root" ∉ names rows')
    by (unfold names; by rewrite <- Hperm).
  apply build_keys in Hb1 as (Hdf1 & Hok1 & Hkeys1).
  destruct (build_canon rows' minimal w' Hnd' Hroot') as (self2 & w2 & Hb2).
  { intros row Hrow Hinc.
    destruct (proj2 (Hkeys1 (col_folder_name row))) as [f Hf].
    { right. exists row. by rewrite Hperm. }
    exists (shape f). apply (Canon_perm rows); [done|].
    rewrite <- Hdf1. by apply Hok1. }
  exists self2, w2. split; [done|].
  apply build_keys in Hb2 as (Hdf2 & Hok2 & Hkeys2).
  assert (Hsame : ∀ k, is_Some (_folder_tree self1 !! k)
                       ↔ is_Some (_folder_tree self2 !! k)).
  { intros k. rewrite Hkeys1, Hkeys2. apply or_iff_compat_l.
    split; intros (row & Hrow & ?); exists row;
      [by rewrite <- Hperm | by rewrite Hperm]. }
  intros k. specialize (Hsame k).
  destruct (_folder_tree self1 !! k) as [f1|] eqn:H1;
    destruct (_folder_tree self2 !! k) as [f2|] eqn:H2; simpl.
  - f_equal. apply Hok1 in H1. apply Hok2 in H2.
    rewrite Hdf1 in H1. rewrite Hdf2 in H2.
    apply (Canon_functional rows Hnd Hroot minimal k); [done|].
    by apply (Canon_perm rows').
  - destruct (proj1 Hsame) as [? [=]]; eauto.
  - destruct (proj2 Hsame) as [? [=]]; eauto.
  - done.
Qed.

Lemma build_order_independent_witness :
  ∃ self1 w1 self2 w2,
    build data_raw false empty_dir = Some (Ret true, self1, w1)
    ∧ build raw_data false empty_dir = Some (Ret true, self2, w2)
    ∧ same_tree (_folder_tree self1) (_folder_tree self2).
Proof.
  assert (∃ self1 w1,
             build data_raw false empty_dir = Some (Ret true, self1, w1))
    as (self1 & w1 & Hb).
  { eexists _, _. vm_compute. reflexivity. }
  destruct (build_order_independent data_raw raw_data false empty_dir
              empty_dir self1 w1) as (self2 & w2 & Hb2 & Hsame).
  - eapply bool_decide_unpack. vm_compute. exact I.
  - eapply bool_decide_unpack. vm_compute. exact I.
  - apply perm_swap.
  - exact Hb.
  - exists self1, w1, self2, w2. auto.
Defined.

(** C6, as stated, fails on templates that the code builds successfully:
    a row named after the root key shadows the root for the rows that
    follow it, and of two rows with the same name the later one wins. *)
Lemma build_order_dependent :
  (root_first ≡ₚ root_last
   ∧ ∃ self1 w1 self2 w2,
       build root_first false empty_dir = Some (Ret true, self1, w1)
       ∧ build root_last false empty_dir = Some (Ret true, self2, w2)
       ∧ path_of self1 "a" = Some (Ret "./root/a")
       ∧ path_of self2 "a" = Some (Ret "./a")
       ∧ ¬ same_tree (_folder_tree self1) (_folder_tree self2))
  ∧ (twice_a ≡ₚ twice_a_swapped
     ∧ ∃ self1 w1 self2 w2,
         build twice_a false empty_dir = Some (Ret true, self1, w1)
         ∧ build twice_a_swapped false empty_dir = Some (Ret true, self2, w2)
         ∧ path_of self1 "a" = Some (Ret "./b/a")
         ∧ path_of self2 "a" = Some (Ret "./a")
         ∧ ¬ same_tree (_folder_tree self1) (_folder_tree self2)).
Proof.
  split; split.
  - apply perm_swap.
  - eexists _, _, _, _.
    split; [vm_compute; reflexivity|].
    split; [vm_compute; reflexivity|].
    split; [vm_compute; reflexivity|].
    split; [vm_compute; reflexivity|].
    intros H. specialize (H "a"). vm_compute in H. discriminate.
  - unfold twice_a, twice_a_swapped.
    etrans; [apply perm_swap|]. etrans; [|apply perm_swap].
    apply perm_skip, perm_swap.
  - eexists _, _, _, _.
    split; [vm_compute; reflexivity|].
    split; [vm_compute; reflexivity|].
    split; [vm_compute; reflexivity|].
    split; [vm_compute; reflexivity|].
    intros H. specialize (H "a"). vm_compute in H. discriminate.
Qed.

(** ** Paths *)

Lemma Folder_init_root_eq name readme w f w' :
  Folder__init__ name None readme w = (Ret f, w') →
  f = mkFolder (next_oid w)
        (if valid_name name then Some "." else None) None readme.
Proof.
  unfold Folder__init__. simpl. destruct (valid_name name) eqn:Hv.
  - rewrite (checked_name_valid _ _ Hv). by intros [= <- _].
  - destruct (checked_name_invalid name None Hv) as [-> | ->];
      by intros [= <- _].
Qed.

Lemma Folder_init_child_eq name p readme w f w' :
  Folder__init__ name (Some p) readme w = (Ret f, w') →
  f = mkFolder (next_oid w)
        (if valid_name name then Some name else None) (Some p) readme
  ∧ (valid_name name = true → named p = true).
Proof.
  intros H. split; [|by apply Folder_init_child_shape in H as [_ ?]].
  revert H. unfold Folder__init__. simpl. destruct (valid_name name) eqn:Hv.
  - rewrite (checked_name_valid _ _ Hv).
    destruct (create_folder _ _) as [[[]|e] w1]; by intros [= <- _].
  - destruct (checked_name_invalid name (Some p) Hv) as [-> | ->];
      by intros [= <- _].
Qed.

Lemma materialized_names f :
  materialized f →
  named f = true ∧ ∃ below, rev (names_up f) = "." :: below.
Proof.
  induction 1 as [name readme w f w' Hf [n Hn]
                 |name p readme w f w' Hp [IHn [below IH]] Hf [n Hn]].
  - apply Folder_init_root_eq in Hf. subst f. simpl in *.
    destruct (valid_name name); [|done]. split; [done|]. by exists [].
  - apply Folder_init_child_eq in Hf as [-> Hv]. simpl in *.
    destruct (valid_name name); [|done]. split; [done|].
    exists (below ++ [name]). by rewrite IH.
Qed.

(** C7. The path of a materialized node is the ['/']-join of the folder
    names on the way from the root down to the node, where the root's name
    is ['.'] whatever name its constructor was given. *)
Theorem folder_path_joins_lineage (f : Folder) :
  materialized f →
  ∃ below,
    mapM folder_name (lineage f) = Some ("." :: below)
    ∧ folder_path f = Ret (Py.join "/" ("." :: below)).
Proof.
  intros (Hn & below & Hb)%materialized_names. exists below.
  rewrite <- Hb. split.
  - by apply lineage_names.
  - by apply folder_path_named.
Qed.

(** The rows [data] (under the root) and [raw] (under [data]), built in
    minimal mode: [raw] is materialized with path ['./data/raw']. *)
Lemma folder_path_joins_lineage_witness :
  ∃ self w f,
    build data_raw true empty_dir = Some (Ret true, self, w)
    ∧ n_folders self = 3
    ∧ _folder_tree self !! "raw" = Some f
    ∧ mapM folder_name (lineage f) = Some ["."; "data"; "raw"]
    ∧ folder_path f = Ret "./data/raw".
Proof.
  set (root := mkFolder 0 (Some ".") None None).
  set (data := mkFolder 1 (Some "data") (Some root) None).
  set (raw := mkFolder 2 (Some "raw") (Some data) None).
  assert (Hraw : materialized raw).
  { eapply (materialized_child "raw" data None
              (mkWorld {["./data"; "."]} ∅ [] 2)); [| |by eexists].
    - eapply (materialized_child "data" root None
                (mkWorld {["."]} ∅ [] 1)); [| |by eexists].
      + eapply (materialized_root "root" None empty_dir); [|by eexists].
        vm_compute. reflexivity.
      + vm_compute. reflexivity.
    - vm_compute. reflexivity. }
  destruct (folder_path_joins_lineage raw Hraw) as (below & Hl & Hp).
  assert (below = ["data"; "raw"]) as -> by (vm_compute in Hl; congruence).
  eexists _, _, raw.
  split; [vm_compute; reflexivity|].
  split; [vm_compute; reflexivity|].
  split; [vm_compute; reflexivity|].
  split; [exact Hl|exact Hp].
Defined.

(** ** Templates whose names are all valid *)

Lemma add_valid_names i row self w :
  _df self !! i = Some row →
  valid_name (col_folder_name row) = true →
  TreeNamed self →
  is_Some (_folder_tree self !! col_parent row) →
  ∃ self' w',
    _add_folder_to_tree i self w = (Ret tt, self', w')
    ∧ TreeNamed self'
    ∧ is_Some (_folder_tree self' !! col_folder_name row).
Proof.
  intros Hrow Hv Hnamed [pf Hpf].
  destruct (Folder_init_child_returns (col_folder_name row) pf
              (col_readme_text row) w) as (f & w' & Hf).
  { intros _. by eapply Hnamed. }
  unfold _add_folder_to_tree. rewrite Hrow, Hpf, Hf.
  do 2 eexists. split; [reflexivity|].
  apply Folder_init_child_eq in Hf as [-> _]. rewrite Hv. split.
  - intros k g. simpl. rewrite lookup_insert. case_decide.
    + intros [= <-]. simpl. by eapply Hnamed.
    + apply Hnamed.
  - simpl. rewrite lookup_insert_eq. eauto.
Qed.

(** With valid names only, a resolution that returns [True] has registered
    the parent it was asked for. *)
Lemma check_valid_names minimal fuel :
  ∀ parent explored self w b self' w',
    Forall (λ n, valid_name n = true) (names (_df self)) →
    TreeNamed self →
    _check_parent_branch_exists fuel minimal parent explored self w
      = Some (b, self', w') →
    TreeNamed self'
    ∧ (b = true → is_Some (_folder_tree self' !! parent)).
Proof.
  induction fuel as [|fuel IH];
    intros parent explored self w b self' w' Hvalid Hnamed; simpl.
  all: destruct (_folder_tree self !! parent) as [pf|] eqn:Hpf;
    [intros [= <- <- _]; split; [done|]; rewrite Hpf; eauto|].
  all: destruct (bool_decide (parent ∈ map col_folder_name (_df self)))
    eqn:Hin; simpl; [|by intros [= <- <- _]].
  all: apply bool_decide_eq_true in Hin.
  all: destruct (bool_decide (parent ∈ explored));
    [by intros [= <- <- _]|].
  all: destruct (index_Some _ _ Hin) as [index Hidx]; rewrite Hidx.
  all: destruct (index_row _ (_df self) _ Hidx) as (row & Hrow & Hn);
    rewrite Hrow.
  all: destruct (included minimal row); [|by intros [= <- <- _]].
  - discriminate.
  - destruct (_check_parent_branch_exists _ _ _ _ _ _)
      as [[[[] self1] w1]|] eqn:Hrec; [| |discriminate].
    + pose proof (check_preserves _ _ _ _ _ _ _ _ _ Hrec) as (Hdf & _ & _).
      apply IH in Hrec as [Hnamed1 Hreg]; [|done|done].
      destruct (add_valid_names index row self1 w1)
        as (s2 & w2 & -> & H2 & H3); auto.
      { by rewrite Hdf. }
      { rewrite Forall_forall in Hvalid. apply Hvalid.
        apply list_elem_of_fmap. exists row. split; [done|].
        by eapply list_elem_of_lookup_2. }
      intros [= <- <- _]. rewrite <- Hn. auto.
    + intros [= <- <- _]. apply IH in Hrec as [? _]; auto.
      by split.
Qed.

(** With valid names only, [create_project_tree] on a registry of named
    nodes returns a boolean: nothing is raised. *)
Lemma for_rows_valid_names minimal rows :
  ∀ self w,
    Forall (λ n, valid_name n = true) (names (_df self)) →
    TreeNamed self →
    (∀ i, i ∈ rows → i < length (_df self)) →
    ∃ b self' w', for_rows minimal rows self w = Some (Ret b, self', w').
Proof.
  induction rows as [|i rows IH]; intros self w Hvalid Hnamed Hlt; simpl;
    [by eauto|].
  destruct (lookup_lt_is_Some_2 (_df self) i) as [row Hrow].
  { apply Hlt. by left. }
  assert (Hrest : ∀ j, j ∈ rows → j < length (_df self)).
  { intros j Hj. apply Hlt. by right. }
  rewrite Hrow. destruct (included minimal row); [|by apply IH].
  assert (Hin : row ∈ _df self) by (by eapply list_elem_of_lookup_2).
  destruct (check_top_total minimal row self w Hin) as [[[b self1] w1] Hc].
  rewrite Hc.
  pose proof (check_preserves _ _ _ _ _ _ _ _ _ Hc) as (Hdf & _ & _).
  apply check_valid_names in Hc as [Hnamed1 Hreg]; [|done|done].
  destruct b; [|by eauto].
  destruct (add_valid_names i row self1 w1) as (s2 & w2 & Ha & H2 & _); auto.
  { by rewrite Hdf. }
  { rewrite Forall_forall in Hvalid. apply Hvalid.
    apply list_elem_of_fmap. eauto. }
  rewrite Ha.
  pose proof (add_df _ _ _ _ _ _ Ha) as Hdf2.
  apply IH; auto; rewrite Hdf2, Hdf; auto.
Qed.

Lemma build_valid_names rows minimal w :
  Forall (λ n, valid_name n = true) (names rows) →
  ∃ b self' w', build rows minimal w = Some (Ret b, self', w').
Proof.
  intros Hvalid. unfold build. rewrite ProjectTemplate_init_eq.
  unfold create_project_tree. apply for_rows_valid_names; simpl.
  - done.
  - intros k f. simpl. rewrite lookup_singleton. case_decide; [|done].
    by intros [= <-].
  - intros i Hi%elem_of_seq. lia.
Qed.

(** ** Failures of the resolution *)

Lemma index_elem x (l : list string) i : Py.index x l = Some i → x ∈ l.
Proof.
  revert i. induction l as [|y l IH]; intros i; simpl; [done|].
  case_decide as Hy; [subst; intros _; by left|].
  destruct (Py.index x l); [|done]. intros _. right. eauto.
Qed.

Lemma row_named_elem df k row :
  row_named df k = Some row → k ∈ names df ∧ row ∈ df ∧ col_folder_name row = k.
Proof.
  unfold row_named. destruct (Py.index k (names df)) as [i|] eqn:Hi; [|done].
  intros Hrow. split; [by eapply index_elem|].
  apply index_row in Hi as (r & Hr & Hn).
  assert (r = row) as -> by congruence.
  split; [by eapply list_elem_of_lookup_2|done].
Qed.

(** When the first [i] rows are processed without failure, the run
    continues with row [i] in the state they leave. *)
Lemma reach_row minimal self w i row self1 w1 :
  for_rows minimal (seq 0 i) self w = Some (Ret true, self1, w1) →
  _df self !! i = Some row →
  _df self1 = _df self
  ∧ create_project_tree minimal self w =
      for_rows minimal (i :: seq (S i) (length (_df self) - S i)) self1 w1.
Proof.
  intros Hpre Hrow.
  pose proof (for_rows_preserves _ _ _ _ _ _ _ Hpre) as (Hdf & _).
  split; [done|]. unfold create_project_tree.
  apply lookup_lt_Some in Hrow.
  replace (length (_df self)) with (i + S (length (_df self) - S i)) at 1
    by lia.
  rewrite seq_app, for_rows_app, Hpre. reflexivity.
Qed.

Lemma check_circular fuel minimal parent explored self w :
  _folder_tree self !! parent = None →
  parent ∈ names (_df self) →
  parent ∈ explored →
  _check_parent_branch_exists fuel minimal parent explored self w
    = Some (false, self, print (msg_circular parent) w).
Proof.
  intros Hp Hn He. unfold names in Hn.
  destruct fuel; simpl; rewrite Hp.
  all: rewrite (bool_decide_eq_true_2 _ Hn); simpl.
  all: by rewrite (bool_decide_eq_true_2 _ He).
Qed.



(** C2, as the code has it. When the run reaches, as a candidate, a row [A]
    whose parent [B] is not registered, the row found for [B] is itself
    included under the current mode and names [A] as its parent, and [A] is
    not registered, the resolution of [B] from the explored list [[A]]
    returns [False] after printing the circular-reference line for [A], and
    [create_project_tree] returns [False]. *)
Theorem direct_cycle_is_circular (minimal : bool) (self : ProjectTemplate)
    (w : World) (i : nat) (rowA rowB : Row) (self1 : ProjectTemplate)
    (w1 : World) :
  for_rows minimal (seq 0 i) self w = Some (Ret true, self1, w1) →
  _df self !! i = Some rowA →
  included minimal rowA = true →
  row_named (_df self) (col_parent rowA) = Some rowB →
  included minimal rowB = true →
  col_parent rowB = col_folder_name rowA →
  _folder_tree self1 !! col_folder_name rowA = None →
  _folder_tree self1 !! col_parent rowA = None →
  _check_parent_branch_exists (length (_df self1)) minimal (col_parent rowA)
    [col_folder_name rowA] self1 w1
    = Some (false, self1, print (msg_circular (col_folder_name rowA)) w1)
  ∧ create_project_tree minimal self w
    = Some (Ret false, self1, print (msg_circular (col_folder_name rowA)) w1).
Proof.
  intros Hpre HA HincA HB HincB Hback HfreeA HfreeB.
  destruct (reach_row _ _ _ _ _ _ _ Hpre HA) as [Hdf ->].
  assert (HAin : col_folder_name rowA ∈ names (_df self1)).
  { rewrite Hdf. apply list_elem_of_fmap. exists rowA.
    split; [done|]. by eapply list_elem_of_lookup_2. }
  pose proof (row_named_elem _ _ _ HB) as (HBin & _ & _).
  assert (Hc : _check_parent_branch_exists (length (_df self1)) minimal
                 (col_parent rowA) [col_folder_name rowA] self1 w1
               = Some (false, self1,
                       print (msg_circular (col_folder_name rowA)) w1)).
  { destruct (decide (col_parent rowA = col_folder_name rowA)) as [Heq|Hne].
    { rewrite Heq. apply check_circular; [done|done|by left]. }
    assert (Hlen : length (_df self1) ≠ 0).
    { rewrite Hdf. apply lookup_lt_Some in HA. lia. }
    destruct (length (_df self1)) as [|fuel]; [done|].
    simpl. rewrite HfreeB, Hdf. fold (names (_df self)).
    rewrite (bool_decide_eq_true_2 _ HBin). simpl.
    rewrite bool_decide_eq_false_2
      by (by intros ?%list_elem_of_singleton).
    unfold row_named in HB.
    destruct (Py.index (col_parent rowA) (names (_df self))) as [j|];
      [|done].
    rewrite HB, HincB, Hback.
    rewrite check_circular; [done|done|done|by left]. }
  split; [done|]. simpl. by rewrite Hdf, HA, HincA, <- Hdf, Hc.
Qed.

Lemma direct_cycle_is_circular_witness :
  ∃ self' w',
    build (cycle_AB true true) false empty_dir = Some (Ret false, self', w')
    ∧ stdout w' = [msg_circular "A"].
Proof.
  assert (∃ self w, ProjectTemplate__init__ (cycle_AB true true) empty_dir
                    = (Ret self, w)) as (self & w & Hinit).
  { eexists _, _. reflexivity. }
  exists self, (print (msg_circular "A") w).
  unfold build. rewrite Hinit. split; [|by injection Hinit as <- <-].
  refine (proj2 (direct_cycle_is_circular false self w 0
                   (entry "A" "B" true) (entry "B" "A" true) self w
                   _ _ _ _ _ _ _ _)); try reflexivity.
  all: by injection Hinit as <- <-.
Defined.

(** C2, as stated, fails in minimal mode: a cycle of two rows that are not
    marked minimal is never resolved, and the build returns [True]; a cycle
    entered from a minimal row through a row that is not marked minimal
    ends the build with the excluded-parent line, and no circular-reference
    line is printed. *)
Lemma direct_cycle_not_reported :
  (∃ self' w',
      build (cycle_AB false false) true empty_dir = Some (Ret true, self', w')
      ∧ stdout w' = [])
  ∧ (∃ self' w',
        build (cycle_AB true false) true empty_dir
          = Some (Ret false, self', w')
        ∧ stdout w' = [msg_minimal "B"]
        ∧ (msg_circular "A" ∉ stdout w') ∧ (msg_circular "B" ∉ stdout w')).
Proof.
  split; eexists _, _; (split; [vm_compute; reflexivity|]);
    [reflexivity|].
  split; [reflexivity|].
  split; simpl; intros H%list_elem_of_singleton; vm_compute in H;
    discriminate.
Qed.

(** When the rows before it are processed without failure, a row marked
    minimal whose parent is excluded from the minimal template ends the
    build with the excluded-parent line. *)
Lemma excluded_parent_reached (rows : list Row) (w : World)
    (self0 : ProjectTemplate) (w0 : World) (i : nat) (row : Row)
    (self1 : ProjectTemplate) (w1 : World) :
  ProjectTemplate__init__ rows w = (Ret self0, w0) →
  for_rows true (seq 0 i) self0 w0 = Some (Ret true, self1, w1) →
  rows !! i = Some row →
  col_minimal row = true →
  col_parent row ≠ "root" →
  col_parent row ∈ names rows →
  (∀ r, r ∈ rows → col_folder_name r = col_parent row →
        col_minimal r = false) →
  build rows true w
    = Some (Ret false, self1, print (msg_minimal (col_parent row)) w1).
Proof.
  intros Hinit Hpre Hrow Hmin Hnr Hin Hexcl.
  unfold build. rewrite Hinit.
  rewrite ProjectTemplate_init_eq in Hinit. injection Hinit as <- <-.
  destruct (reach_row _ _ _ _ _ _ _ Hpre Hrow) as [Hdf ->].
  apply for_rows_preserves in Hpre as (_ & _ & Hok & _).
  specialize (Hok (fresh_TreeOk _ _ _)). simpl in *.
  assert (Hfree : _folder_tree self1 !! col_parent row = None).
  { destruct (_folder_tree self1 !! col_parent row) as [f|] eqn:Hf; [|done].
    apply Hok, canon_key in Hf as [?|(r & Hr & Hinc & Hn)]; [done|].
    rewrite Hdf in Hr. unfold included in Hinc.
    rewrite (Hexcl r Hr Hn) in Hinc. discriminate. }
  assert (Hself : col_parent row ≠ col_folder_name row).
  { intros Heq. rewrite (Hexcl row) in Hmin; [done| |done].
    by eapply list_elem_of_lookup_2. }
  assert (Hc : _check_parent_branch_exists (length (_df self1)) true
                 (col_parent row) [col_folder_name row] self1 w1
               = Some (false, self1, print (msg_minimal (col_parent row)) w1)).
  { destruct (index_Some _ _ Hin) as [j Hj].
    destruct (index_row _ _ _ Hj) as (r & Hr & Hn).
    assert (Hrmin : included true r = false).
    { unfold included. rewrite (Hexcl r); [done| |done].
      by eapply list_elem_of_lookup_2. }
    destruct (length (_df self1)); simpl; rewrite Hfree, Hdf;
      fold (names rows).
    all: rewrite (bool_decide_eq_true_2 _ Hin); simpl.
    all: rewrite bool_decide_eq_false_2
      by (by intros ?%list_elem_of_singleton).
    all: by rewrite Hj, Hr, Hrmin. }
  simpl. rewrite Hdf, Hrow. unfold included at 1. rewrite Hmin. simpl.
  by rewrite <- Hdf, Hc.
Qed.




(** ** The registry only gains keys *)




(** ** Invalid folder names *)

Lemma report_init_error_other kind w :
  report_init_error (Exception kind) w = print (msg_other kind) w.
Proof. reflexivity. Qed.

(** C8. For every invalid name, [Folder(name, parent, readme)] returns an
    object without [folder_name], creates no directory and no file, and
    prints one line; the line is the fallback ['Other unexpected error
    occurred: ...'] one, never one of the two lines that list the reserved
    characters or names: [err.args] is a tuple and is compared with a
    string. *)
Theorem invalid_name_report (name : string) (parent : option Folder)
    (readme : option string) (w : World) :
  valid_name name = false →
  ∃ f w' line,
    Folder__init__ name parent readme w = (Ret f, w')
    ∧ folder_name f = None
    ∧ dirs w' = dirs w ∧ files w' = files w
    ∧ stdout w' = stdout w ++ [line]
    ∧ (line = msg_other "ReservedCharError"
       ∨ line = msg_other "ReservedNameError")
    ∧ line ≠ msg_reserved_chars ∧ line ≠ msg_reserved_names.
Proof.
  intros Hv. unfold Folder__init__. simpl.
  destruct (checked_name_invalid name parent Hv) as [-> | ->];
    rewrite report_init_error_other; eexists _, _, _;
    (split; [reflexivity|]); simpl; repeat split; auto; discriminate.
Qed.

Lemma invalid_name_report_witness :
  valid_name "a*b" = false
  ∧ ∃ f w' line,
      Folder__init__ "a*b" (Some root_object) None after_root = (Ret f, w')
      ∧ folder_name f = None
      ∧ dirs w' = dirs after_root ∧ files w' = files after_root
      ∧ stdout w' = stdout after_root ++ [line]
      ∧ (line = msg_other "ReservedCharError"
         ∨ line = msg_other "ReservedNameError")
      ∧ line ≠ msg_reserved_chars ∧ line ≠ msg_reserved_names.
Proof.
  split; [reflexivity|].
  apply (invalid_name_report "a*b" (Some root_object) None after_root).
  reflexivity.
Defined.

(** C4. The row ['a*b'] under the root: the name holds a reserved character,
    yet [create_project_tree] returns [True] and the registry holds, under
    ['a*b'], the object whose construction was given up. *)
Theorem invalid_name_is_registered :
  valid_name "a*b" = false
  ∧ ∃ self' w' f,
      build starred false empty_dir = Some (Ret true, self', w')
      ∧ _folder_tree self' !! "a*b" = Some f
      ∧ folder_name f = None
      ∧ n_folders self' = 2
      ∧ dirs w' = {["."]}
      ∧ stdout w' = [msg_other "ReservedCharError"].
Proof.
  split; [reflexivity|]. eexists _, _, _.
  split; [vm_compute; reflexivity|].
  split; [vm_compute; reflexivity|].
  repeat split; vm_compute; reflexivity.
Qed.

(** C9. The rows [c] (under [b]), [b] (under ['a*']) and ['a*'] (under the
    root): resolving the parent of [c] returns [True] although [b] is not
    registered, since constructing [b] under the nameless ['a*'] raises
    [AttributeError] and the [finally: return] discards it; registering [c]
    then raises [KeyError] for [b], and [create_project_tree] with it. *)
Theorem resolved_parent_not_registered :
  ∃ self w self1 w1 w2,
    ProjectTemplate__init__ under_starred empty_dir = (Ret self, w)
    ∧ _check_parent_branch_exists (length under_starred) false "b" ["c"]
        self w = Some (true, self1, w1)
    ∧ _folder_tree self1 !! "b" = None
    ∧ _add_folder_to_tree 0 self1 w1 = (Raise (KeyError "b"), self1, w1)
    ∧ create_project_tree false self w = Some (Raise (KeyError "b"), self1, w2).
Proof.
  eexists _, _, _, _, _.
  split; [reflexivity|].
  split; [vm_compute; reflexivity|].
  split; [vm_compute; reflexivity|].
  split; vm_compute; reflexivity.
Qed.

(** * Further properties of the code *)

(** ** What a run relates: a scheme for invariants *)

Section relation.
Context (minimal : bool).
Context (R : ProjectTemplate → World → ProjectTemplate → World → Prop).
Hypothesis R_refl : ∀ s w, R s w s w.
Hypothesis R_trans :
  ∀ s w s1 w1 s2 w2, R s w s1 w1 → R s1 w1 s2 w2 → R s w s2 w2.
Hypothesis R_print : ∀ s w line, R s w s (print line w).
Hypothesis R_add :
  ∀ i row s w o s' w',
    _df s !! i = Some row → included minimal row = true →
    _add_folder_to_tree i s w = (o, s', w') → R s w s' w'.

Lemma check_relates fuel :
  ∀ parent explored self w b self' w',
    _check_parent_branch_exists fuel minimal parent explored self w
      = Some (b, self', w') →
    R self w self' w'.
Proof using R_refl R_trans R_print R_add.
  induction fuel as [|fuel IH]; intros parent explored self w b self' w';
    simpl.
  all: destruct (_folder_tree self !! parent) as [pf|];
    [by intros [= _ <- <-]|].
  all: destruct (bool_decide (parent ∈ map col_folder_name (_df self)));
    simpl; [|by intros [= _ <- <-]].
  all: destruct (bool_decide (parent ∈ explored));
    [by intros [= _ <- <-]|].
  all: destruct (Py.index _ _) as [index|]; [|by intros [= _ <- <-]].
  all: destruct (_df self !! index) as [row|] eqn:Hrow;
    [|by intros [= _ <- <-]].
  all: destruct (included minimal row) eqn:Hinc; [|by intros [= _ <- <-]].
  - discriminate.
  - destruct (_check_parent_branch_exists _ _ _ _ _ _)
      as [[[[] self1] w1]|] eqn:Hrec; [| |discriminate].
    + destruct (_add_folder_to_tree index self1 w1) as [[o self2] w2] eqn:Ha.
      intros [= _ <- <-].
      pose proof (check_preserves _ _ _ _ _ _ _ _ _ Hrec) as (Hdf & _ & _).
      eapply R_trans; [by eapply IH|].
      eapply R_add; [|exact Hinc|exact Ha]. by rewrite Hdf.
    + intros [= _ <- <-]. by eapply IH.
Qed.

Lemma for_rows_relates rows :
  ∀ self w o self' w',
    for_rows minimal rows self w = Some (o, self', w') →
    R self w self' w'.
Proof using R_refl R_trans R_print R_add.
  induction rows as [|i rows IH]; intros self w o self' w'; simpl.
  { by intros [= _ <- <-]. }
  destruct (_df self !! i) as [row|] eqn:Hrow; [|by intros [= _ <- <-]].
  destruct (included minimal row) eqn:Hinc; [|by apply IH].
  destruct (_check_parent_branch_exists _ _ _ _ _ _)
    as [[[[] self1] w1]|] eqn:Hc; [| |discriminate].
  2:{ intros [= _ <- <-]. by eapply check_relates. }
  pose proof (check_preserves _ _ _ _ _ _ _ _ _ Hc) as (Hdf & _ & _).
  apply check_relates in Hc.
  destruct (_add_folder_to_tree i self1 w1) as [[[[]|e] self2] w2] eqn:Ha.
  - intros H. apply IH in H.
    eapply R_trans; [exact Hc|]. eapply R_trans; [|exact H].
    eapply R_add; [|exact Hinc|exact Ha]. by rewrite Hdf.
  - intros [= _ <- <-]. eapply R_trans; [exact Hc|].
    eapply R_add; [|exact Hinc|exact Ha]. by rewrite Hdf.
Qed.
End relation.

(** ** The world only gains *)

Lemma extends_refl w : extends w w.
Proof. by repeat split. Qed.

Lemma extends_trans w1 w2 w3 : extends w1 w2 → extends w2 w3 → extends w1 w3.
Proof.
  intros (? & ? & ? & ?) (? & ? & ? & ?). repeat split; try set_solver.
  - by etrans.
  - lia.
Qed.

Lemma print_extends line w : extends w (print line w).
Proof. repeat split; simpl; auto. by apply prefix_app_r. Qed.

Lemma create_folder_extends self w o w' :
  create_folder self w = (o, w') → extends w w'.
Proof.
  unfold create_folder. destruct (folder_path self) as [path|e].
  2:{ intros [= _ <-]. apply extends_refl. }
  assert (H1 : extends w (match os_mkdir path w with
                          | (Raise err, w0) => print (str_exn err) w0
                          | (Ret _, w0) => w0
                          end)).
  { unfold os_mkdir. case_decide.
    - apply print_extends.
    - repeat split; simpl; auto. set_solver. }
  destruct (readme_text self) as [text|]; intros [= _ <-]; [|done].
  eapply extends_trans; [exact H1|].
  repeat split; simpl; auto. rewrite dom_insert_L. set_solver.
Qed.

Lemma Folder_init_extends name parent readme w o w' :
  Folder__init__ name parent readme w = (o, w') → extends w w'.
Proof.
  assert (Ha : extends w (alloc w).2).
  { repeat split; simpl; auto. }
  unfold Folder__init__. simpl in *.
  destruct (checked_name name parent) as [n|err].
  - destruct parent as [p|].
    + destruct (create_folder _ _) as [[[]|e] w1] eqn:Hc;
        intros [= _ <-]; (eapply extends_trans; [exact Ha|]);
        by eapply create_folder_extends.
    + by intros [= _ <-].
  - intros [= _ <-]. eapply extends_trans; [exact Ha|].
    unfold report_init_error.
    repeat case_match; apply print_extends.
Qed.

Lemma add_extends i self w o self' w' :
  _add_folder_to_tree i self w = (o, self', w') → extends w w'.
Proof.
  unfold _add_folder_to_tree.
  destruct (_df self !! i) as [row|];
    [|intros [= _ _ <-]; apply extends_refl].
  destruct (_folder_tree self !! col_parent row) as [p|];
    [|intros [= _ _ <-]; apply extends_refl].
  destruct (Folder__init__ _ _ _ _) as [[f|e] w1] eqn:Hf;
    intros [= _ _ <-]; by eapply Folder_init_extends.
Qed.

(** X1. Whatever [create_project_tree] returns or raises, the world it
    leaves holds everything the world it started in held: no directory and
    no file is removed, printed lines are only appended. *)
Theorem run_only_adds (minimal : bool) (self : ProjectTemplate) (w : World)
    (o : outcome bool) (self' : ProjectTemplate) (w' : World) :
  create_project_tree minimal self w = Some (o, self', w') →
  dirs w ⊆ dirs w'
  ∧ dom (files w) ⊆ dom (files w')
  ∧ stdout w `prefix_of` stdout w'.
Proof.
  intros H.
  apply (for_rows_relates minimal (λ _ w _ w', extends w w')) in H.
  - destruct H as (? & ? & ? & ?). auto.
  - intros. apply extends_refl.
  - intros. by eapply extends_trans.
  - intros. apply print_extends.
  - intros. by eapply add_extends.
Qed.

Lemma run_only_adds_witness :
  ∃ self w self' w',
    ProjectTemplate__init__ raw_first empty_dir = (Ret self, w)
    ∧ create_project_tree false self w = Some (Ret true, self', w')
    ∧ dirs w ⊆ dirs w'
    ∧ dom (files w) ⊆ dom (files w')
    ∧ stdout w `prefix_of` stdout w'.
Proof.
  assert (∃ self w self' w',
             ProjectTemplate__init__ raw_first empty_dir = (Ret self, w)
             ∧ create_project_tree false self w = Some (Ret true, self', w'))
    as (self & w & self' & w' & Hinit & Hrun).
  { eexists _, _, _, _. split; [reflexivity|]. vm_compute. reflexivity. }
  exists self, w, self', w'. split; [exact Hinit|]. split; [exact Hrun|].
  exact (run_only_adds false self w (Ret true) self' w' Hrun).
Defined.

(** ** Keys that no row names *)

Lemma add_other_keys i self w o self' w' row k :
  _df self !! i = Some row →
  _add_folder_to_tree i self w = (o, self', w') →
  k ≠ col_folder_name row →
  _folder_tree self' !! k = _folder_tree self !! k.
Proof.
  intros Hrow. unfold _add_folder_to_tree. rewrite Hrow.
  destruct (_folder_tree self !! col_parent row) as [p|];
    [|by intros [= _ <- _]].
  destruct (Folder__init__ _ _ _ _) as [[f|e] w1]; intros [= _ <- _]; [|done].
  intros Hk. simpl. by rewrite lookup_insert_ne.
Qed.

Lemma for_rows_other_keys minimal rows self w o self' w' k :
  for_rows minimal rows self w = Some (o, self', w') →
  k ∉ names (_df self) →
  _folder_tree self' !! k = _folder_tree self !! k.
Proof.
  intros H.
  apply (for_rows_relates minimal
           (λ s _ s' _, _df s' = _df s
                        ∧ ∀ k, k ∉ names (_df s) →
                               _folder_tree s' !! k = _folder_tree s !! k))
    in H.
  - destruct H as [_ H]. apply H.
  - by intros; split.
  - intros s ? s1 ? s2 ? [Hdf1 H1] [Hdf2 H2]. split; [congruence|].
    intros k' Hk'. rewrite H2, H1; auto. by rewrite Hdf1.
  - by intros; split.
  - intros i row s ? o' s' ? Hrow _ Ha. split; [by eapply add_df|].
    intros k' Hk'. eapply add_other_keys; eauto.
    intros ->. apply Hk', list_elem_of_fmap. exists row. split; [done|].
    by eapply list_elem_of_lookup_2.
Qed.

(** X2. When no row is named ['root'], the entry under ['root'] is, after
    any run from a new builder, still the root object that the constructor
    made (name ['.'], no parent, no README text), and no key other than
    ['root'] and the row names is ever bound. *)
Theorem root_entry_kept (rows : list Row) (minimal : bool) (w : World)
    (o : outcome bool) (self' : ProjectTemplate) (w' : World) :
  "root" ∉ names rows →
  build rows minimal w = Some (o, self', w') →
  _folder_tree self' !! "root"
    = Some (mkFolder (next_oid w) (Some ".") None None)
  ∧ ∀ k, k ≠ "root" → k ∉ names rows → _folder_tree self' !! k = None.
Proof.
  intros Hroot. unfold build. rewrite ProjectTemplate_init_eq.
  unfold create_project_tree. intros H. split.
  - rewrite (for_rows_other_keys _ _ _ _ _ _ _ "root" H); [|done].
    simpl. by rewrite lookup_singleton_eq.
  - intros k Hk Hn.
    rewrite (for_rows_other_keys _ _ _ _ _ _ _ k H); [|done].
    simpl. by rewrite lookup_singleton_ne.
Qed.

Lemma root_entry_kept_witness :
  ∃ self' w',
    build under_starred false empty_dir
      = Some (Raise (KeyError "b"), self', w')
    ∧ _folder_tree self' !! "root" = Some (mkFolder 0 (Some ".") None None)
    ∧ ∀ k, k ≠ "root" → k ∉ names under_starred →
           _folder_tree self' !! k = None.
Proof.
  assert (∃ self' w', build under_starred false empty_dir
                      = Some (Raise (KeyError "b"), self', w'))
    as (self' & w' & Hb).
  { eexists _, _. vm_compute. reflexivity. }
  exists self', w'. split; [exact Hb|].
  apply (root_entry_kept under_starred false empty_dir
           (Raise (KeyError "b")) self' w'); [|exact Hb].
  eapply bool_decide_unpack. vm_compute. exact I.
Defined.

(** ** Directories of the registered nodes *)

Lemma Folder_init_dir name p readme w f w' path :
  Folder__init__ name (Some p) readme w = (Ret f, w') →
  folder_path f = Ret path →
  path ∈ dirs w'.
Proof.
  unfold Folder__init__. simpl. destruct (valid_name name) eqn:Hv.
  - rewrite (checked_name_valid _ _ Hv). unfold create_folder.
    destruct (folder_path _) as [path0|e] eqn:Hp; [|discriminate].
    assert (Hin : path0 ∈ dirs (match os_mkdir path0 (alloc w).2 with
                                | (Raise err, w0) => print (str_exn err) w0
                                | (Ret _, w0) => w0
                                end)).
    { unfold os_mkdir. case_decide; simpl; [done|set_solver]. }
    simpl in Hin.
    destruct readme; intros [= <- <-]; rewrite Hp; by intros [= <-].
  - destruct (checked_name_invalid name (Some p) Hv) as [-> | ->];
      intros [= <- _]; discriminate.
Qed.

Lemma add_DirsOk i self w o self' w' :
  _add_folder_to_tree i self w = (o, self', w') →
  DirsOk self w → DirsOk self' w'.
Proof.
  intros Ha Hok. pose proof (add_extends _ _ _ _ _ _ Ha) as (Hsub & _).
  revert Ha. unfold _add_folder_to_tree.
  destruct (_df self !! i) as [row|];
    [|intros [= _ <- <-]; exact Hok].
  destruct (_folder_tree self !! col_parent row) as [p|];
    [|intros [= _ <- <-]; exact Hok].
  destruct (Folder__init__ _ _ _ _) as [[f|e] w1] eqn:Hf;
    intros [= _ <- <-].
  - intros k g path. simpl. rewrite lookup_insert. case_decide.
    + intros [= <-] _ Hp. by eapply Folder_init_dir.
    + intros Hg Hpar Hp. apply Hsub. by eapply Hok.
  - intros k g path Hg Hpar Hp. apply Hsub. by eapply Hok.
Qed.

(** X3. After any run from a new builder, whatever it returns or raises,
    every registered node that has a parent and a path has its directory:
    the path is among the existing directories. *)
Theorem registered_directories_exist (rows : list Row) (minimal : bool)
    (w : World) (o : outcome bool) (self' : ProjectTemplate) (w' : World)
    (k : string) (f : Folder) (path : string) :
  build rows minimal w = Some (o, self', w') →
  _folder_tree self' !! k = Some f →
  is_Some (parent f) →
  folder_path f = Ret path →
  path ∈ dirs w'.
Proof.
  unfold build. rewrite ProjectTemplate_init_eq. unfold create_project_tree.
  intros H.
  apply (for_rows_relates minimal
           (λ s w s' w', extends w w' ∧ (DirsOk s w → DirsOk s' w'))) in H.
  - destruct H as [_ H]. apply H.
    intros k' g p'. simpl. rewrite lookup_singleton. case_decide; [|done].
    intros [= <-] [? [=]].
  - intros. split; [apply extends_refl|done].
  - intros s ? s1 ? s2 ? [He1 H1] [He2 H2]. split; [by eapply extends_trans|].
    auto.
  - intros s w0 line. split; [apply print_extends|]. done.
  - intros i row s w0 o' s' w0' _ _ Ha. split; [by eapply add_extends|].
    by eapply add_DirsOk.
Qed.

Lemma registered_directories_exist_witness :
  ∃ self' w' f,
    build data_raw false empty_dir = Some (Ret true, self', w')
    ∧ _folder_tree self' !! "raw" = Some f
    ∧ folder_path f = Ret "./data/raw"
    ∧ "./data/raw" ∈ dirs w'.
Proof.
  assert (∃ self' w' f,
             build data_raw false empty_dir = Some (Ret true, self', w')
             ∧ _folder_tree self' !! "raw" = Some f
             ∧ is_Some (parent f)
             ∧ folder_path f = Ret "./data/raw")
    as (self' & w' & f & Hb & Hf & Hpar & Hp).
  { eexists _, _, _. split; [vm_compute; reflexivity|].
    split; [vm_compute; reflexivity|]. split; [by eexists|reflexivity]. }
  exists self', w', f. repeat split; auto.
  exact (registered_directories_exist data_raw false empty_dir (Ret true)
           self' w' "raw" f "./data/raw" Hb Hf Hpar Hp).
Defined.

(** ** Minimal builds *)

(** X4. After any minimal-mode run from a new builder, whatever it returns
    or raises, every registered key is ['root'] or the name of a row marked
    minimal: rows that are not marked minimal are never materialized. *)
Theorem minimal_build_registers_minimal_rows (rows : list Row) (w : World)
    (o : outcome bool) (self' : ProjectTemplate) (w' : World) (k : string) :
  build rows true w = Some (o, self', w') →
  is_Some (_folder_tree self' !! k) →
  k = "root"
  ∨ ∃ row, row ∈ rows ∧ col_minimal row = true ∧ col_folder_name row = k.
Proof.
  unfold build. rewrite ProjectTemplate_init_eq. unfold create_project_tree.
  intros H [f Hf].
  apply for_rows_preserves in H as (Hdf & _ & Hok & _).
  specialize (Hok (fresh_TreeOk _ _ _)). simpl in Hdf.
  apply Hok, canon_key in Hf as [->|(row & Hrow & Hinc & <-)]; [by left|].
  right. exists row. rewrite Hdf in Hrow. split; [done|]. split; [|done].
  unfold included in Hinc. simpl in Hinc. by rewrite andb_true_r in Hinc.
Qed.

Lemma minimal_build_registers_minimal_rows_witness :
  ∃ self' w',
    build excluded_parent true empty_dir = Some (Ret false, self', w')
    ∧ is_Some (_folder_tree self' !! "data")
    ∧ ("data" = "root"
       ∨ ∃ row, row ∈ excluded_parent ∧ col_minimal row = true
                ∧ col_folder_name row = "data").
Proof.
  assert (∃ self' w',
             build excluded_parent true empty_dir = Some (Ret false, self', w')
             ∧ is_Some (_folder_tree self' !! "data"))
    as (self' & w' & Hb & Hk).
  { eexists _, _. split; [vm_compute; reflexivity|]. vm_compute. eauto. }
  exists self', w'. split; [exact Hb|]. split; [exact Hk|].
  exact (minimal_build_registers_minimal_rows excluded_parent empty_dir
           (Ret false) self' w' "data" Hb Hk).
Defined.

(** ** Resolutions that fail *)

(** X5. A resolution that returns [False] has changed nothing but the
    output: the registry is the one it started with, no object was made, no
    directory or file was touched, and exactly one line was printed, which
    names a folder as missing from the template, as already explored, or as
    excluded from the minimal template. *)
Theorem failed_resolution_only_prints (fuel : nat) (minimal : bool)
    (parent : string) (explored : list string) (self : ProjectTemplate)
    (w : World) (self' : ProjectTemplate) (w' : World) :
  _check_parent_branch_exists fuel minimal parent explored self w
    = Some (false, self', w') →
  self' = self
  ∧ ∃ name, w' = print (msg_not_in_template name) w
            ∨ w' = print (msg_circular name) w
            ∨ w' = print (msg_minimal name) w.
Proof.
  revert parent explored.
  induction fuel as [|fuel IH]; intros parent explored; simpl.
  all: destruct (_folder_tree self !! parent) as [pf|]; [done|].
  all: destruct (bool_decide (parent ∈ map col_folder_name (_df self)));
    simpl; [|intros [= <- <-]; by eauto].
  all: destruct (bool_decide (parent ∈ explored));
    [intros [= <- <-]; by eauto|].
  all: destruct (Py.index _ _) as [index|]; [|done].
  all: destruct (_df self !! index) as [row|]; [|done].
  all: destruct (included minimal row); [|intros [= <- <-]; by eauto].
  - done.
  - destruct (_check_parent_branch_exists _ _ _ _ _ _)
      as [[[[] self1] w1]|] eqn:Hrec; [| |done].
    + by destruct (_add_folder_to_tree index self1 w1) as [[? ?] ?].
    + intros [= <- <-]. by eapply IH.
Qed.

Lemma failed_resolution_only_prints_witness :
  ∃ self w self' w',
    ProjectTemplate__init__ (cycle_AB true true) empty_dir = (Ret self, w)
    ∧ _check_parent_branch_exists 2 false "B" ["A"] self w
      = Some (false, self', w')
    ∧ self' = self
    ∧ ∃ name, w' = print (msg_not_in_template name) w
              ∨ w' = print (msg_circular name) w
              ∨ w' = print (msg_minimal name) w.
Proof.
  assert (∃ self w self' w',
             ProjectTemplate__init__ (cycle_AB true true) empty_dir
               = (Ret self, w)
             ∧ _check_parent_branch_exists 2 false "B" ["A"] self w
               = Some (false, self', w'))
    as (self & w & self' & w' & Hinit & Hc).
  { eexists _, _, _, _. split; [reflexivity|]. vm_compute. reflexivity. }
  exists self, w, self', w'. split; [exact Hinit|]. split; [exact Hc|].
  exact (failed_resolution_only_prints 2 false "B" ["A"] self w self' w' Hc).
Defined.

(** X6. When the run reaches, as a candidate, a row whose parent is neither
    registered nor the name of any row, it prints that the parent does not
    exist in the template file, registers nothing for that row and returns
    [False] without looking at the rows that follow. *)
Theorem missing_parent_fails (minimal : bool) (self : ProjectTemplate)
    (w : World) (i : nat) (row : Row) (self1 : ProjectTemplate) (w1 : World) :
  for_rows minimal (seq 0 i) self w = Some (Ret true, self1, w1) →
  _df self !! i = Some row →
  included minimal row = true →
  _folder_tree self1 !! col_parent row = None →
  col_parent row ∉ names (_df self) →
  create_project_tree minimal self w
    = Some (Ret false, self1,
            print (msg_not_in_template (col_parent row)) w1).
Proof.
  intros Hpre Hrow Hinc Hfree Hnot.
  destruct (reach_row _ _ _ _ _ _ _ Hpre Hrow) as [Hdf ->].
  simpl. rewrite Hdf, Hrow, Hinc.
  destruct (length (_df self)); simpl; rewrite Hfree, Hdf.
  all: by rewrite (bool_decide_eq_false_2 _ Hnot).
Qed.

Lemma missing_parent_fails_witness :
  ∃ self w self1 w1,
    ProjectTemplate__init__ ghost_then_excluded empty_dir = (Ret self, w)
    ∧ create_project_tree false self w
      = Some (Ret false, self1, print (msg_not_in_template "ghost") w1).
Proof.
  assert (∃ self w, ProjectTemplate__init__ ghost_then_excluded empty_dir
                    = (Ret self, w)) as (self & w & Hinit).
  { eexists _, _. reflexivity. }
  exists self, w, self, w. split; [exact Hinit|].
  refine (missing_parent_fails false self w 0 (entry "x" "ghost" true)
            self w _ _ _ _ _).
  - reflexivity.
  - by injection Hinit as <- <-.
  - reflexivity.
  - by injection Hinit as <- <-.
  - injection Hinit as <- <-. simpl.
    intros H. repeat (apply elem_of_cons in H as [H|H]; [discriminate|]).
    by apply elem_of_nil in H.
Defined.

(** ** Depth of the recursion *)

Lemma check_fuel_S minimal fuel :
  ∀ parent explored self w r,
    _check_parent_branch_exists fuel minimal parent explored self w = Some r →
    _check_parent_branch_exists (S fuel) minimal parent explored self w
      = Some r.
Proof.
  induction fuel as [|fuel IH]; intros parent explored self w r H.
  all: revert H; simpl.
  all: destruct (_folder_tree self !! parent) as [pf|]; [done|].
  all: destruct (bool_decide (parent ∈ map col_folder_name (_df self)));
    simpl; [|done].
  all: destruct (bool_decide (parent ∈ explored)); [done|].
  all: destruct (Py.index _ _) as [index|]; [|done].
  all: destruct (_df self !! index) as [row|]; [|done].
  all: destruct (included minimal row); [|done].
  - done.
  - destruct (_check_parent_branch_exists fuel _ _ _ _ _) as [r1|] eqn:Hrec;
      [|done].
    apply IH in Hrec. simpl in Hrec. by rewrite Hrec.
Qed.

Lemma check_fuel_le minimal fuel fuel' parent explored self w r :
  fuel ≤ fuel' →
  _check_parent_branch_exists fuel minimal parent explored self w = Some r →
  _check_parent_branch_exists fuel' minimal parent explored self w = Some r.
Proof.
  induction 1 as [|fuel' _ IH]; [done|].
  intros H. by apply check_fuel_S, IH.
Qed.

(** X7. The recursion of [_check_parent_branch_exists] is bounded: called
    with an explored list of distinct row names, it nests at most as many
    calls as there are rows not yet explored. Any allowance of at least
    that many nested calls gives a result, and the same one. *)
Theorem resolution_depth_bounded (minimal : bool) (parent : string)
    (explored : list string) (self : ProjectTemplate) (w : World)
    (fuel fuel' : nat) :
  NoDup explored →
  (∀ e, e ∈ explored → e ∈ names (_df self)) →
  length (_df self) ≤ fuel + length explored →
  fuel ≤ fuel' →
  ∃ r,
    _check_parent_branch_exists fuel minimal parent explored self w = Some r
    ∧ _check_parent_branch_exists fuel' minimal parent explored self w
      = Some r.
Proof.
  intros Hnd Hsub Hlen Hle.
  destruct (check_total minimal fuel parent explored self w Hnd Hsub Hlen)
    as [r Hr].
  exists r. split; [done|]. by eapply check_fuel_le.
Qed.

Lemma resolution_depth_bounded_witness :
  ∃ r,
    _check_parent_branch_exists 2 false "raw" ["x"]
      (mkProjectTemplate (entry "x" "raw" true :: raw_first)
         {["root" := root_object]}) after_root = Some r
    ∧ _check_parent_branch_exists 7 false "raw" ["x"]
        (mkProjectTemplate (entry "x" "raw" true :: raw_first)
           {["root" := root_object]}) after_root = Some r.
Proof.
  apply resolution_depth_bounded.
  - apply NoDup_singleton.
  - intros e ->%list_elem_of_singleton. by left.
  - simpl. lia.
  - lia.
Defined.

(** ** Runs over valid names *)

Lemma add_TreeNamed i row self w o self' w' :
  _df self !! i = Some row →
  valid_name (col_folder_name row) = true →
  _add_folder_to_tree i self w = (o, self', w') →
  TreeNamed self → TreeNamed self'.
Proof.
  intros Hrow Hv. unfold _add_folder_to_tree. rewrite Hrow.
  destruct (_folder_tree self !! col_parent row) as [p|];
    [|by intros [= _ <- _]].
  destruct (Folder__init__ _ _ _ _) as [[f|e] w1] eqn:Hf;
    intros [= _ <- _]; [|done].
  apply Folder_init_child_eq in Hf as [-> Hp]. rewrite Hv.
  intros Hnamed k g. simpl. rewrite lookup_insert. case_decide.
  - intros [= <-]. simpl. auto.
  - apply Hnamed.
Qed.

Lemma for_rows_TreeNamed minimal rows self w o self' w' :
  Forall (λ n, valid_name n = true) (names (_df self)) →
  for_rows minimal rows self w = Some (o, self', w') →
  TreeNamed self → TreeNamed self'.
Proof.
  intros Hvalid H.
  apply (for_rows_relates minimal
           (λ s _ s' _,
              _df s' = _df s
              ∧ (Forall (λ n, valid_name n = true) (names (_df s)) →
                 TreeNamed s → TreeNamed s'))) in H.
  - destruct H as [_ H]. by apply H.
  - by intros; split.
  - intros s ? s1 ? s2 ? [Hdf1 H1] [Hdf2 H2]. split; [congruence|].
    intros Hv Hn. apply H2; [by rewrite Hdf1|]. by apply H1.
  - by intros; split.
  - intros i row s ? o' s' ? Hrow _ Ha. split; [by eapply add_df|].
    intros Hv. eapply add_TreeNamed; eauto.
    rewrite Forall_forall in Hv. apply Hv, list_elem_of_fmap.
    exists row. split; [done|]. by eapply list_elem_of_lookup_2.
Qed.





(** ** Successful runs *)

Lemma candidate_names minimal (rows : list Row) k :
  k ∈ names (candidates minimal rows)
  ↔ ∃ row, row ∈ rows ∧ included minimal row = true
           ∧ col_folder_name row = k.
Proof.
  unfold names, candidates. rewrite list_elem_of_fmap. split.
  - intros (row & -> & [? ?]%list_elem_of_filter). eauto.
  - intros (row & ? & ? & <-). exists row. split; [done|].
    by apply list_elem_of_filter.
Qed.

(** X10. For a template with distinct folder names, none of them ['root'],
    after a run from a new builder that returns [True], in either mode,
    [n_folders] is the number of candidate rows plus one: every candidate
    is registered, and besides the root nothing else is. *)
Theorem successful_build_count (rows : list Row) (minimal : bool) (w : World)
    (self' : ProjectTemplate) (w' : World) :
  NoDup (names rows) →
  "root" ∉ names rows →
  build rows minimal w = Some (Ret true, self', w') →
  n_folders self' = length (candidates minimal rows) + 1
  ∧ ∀ k, is_Some (_folder_tree self' !! k)
         ↔ k = "root" ∨ k ∈ names (candidates minimal rows).
Proof.
  intros Hnd Hroot Hb. apply build_keys in Hb as (_ & _ & Hkeys).
  assert (Hk : ∀ k, is_Some (_folder_tree self' !! k)
                    ↔ k = "root" ∨ k ∈ names (candidates minimal rows)).
  { intros k. rewrite Hkeys. apply or_iff_compat_l.
    symmetry. apply candidate_names. }
  split; [|done]. unfold n_folders.
  rewrite (registry_size _ (names (candidates minimal rows))); auto.
  - unfold names. by rewrite length_map.
  - eapply sublist_NoDup; [exact Hnd|]. unfold names, candidates.
    apply fmap_sublist, sublist_filter.
  - intros (row & ? & _ & Hn)%candidate_names. apply Hroot.
    rewrite <- Hn. apply list_elem_of_fmap. eauto.
Qed.

Lemma successful_build_count_witness :
  ∃ self' w',
    build (entry "extra" "data" false :: data_raw) true empty_dir
      = Some (Ret true, self', w')
    ∧ n_folders self' = 3.
Proof.
  assert (∃ self' w',
             build (entry "extra" "data" false :: data_raw) true empty_dir
               = Some (Ret true, self', w')) as (self' & w' & Hb).
  { eexists _, _. vm_compute. reflexivity. }
  exists self', w'. split; [exact Hb|].
  refine (proj1 (successful_build_count _ true empty_dir self' w' _ _ Hb)).
  - eapply bool_decide_unpack. vm_compute. exact I.
  - eapply bool_decide_unpack. vm_compute. exact I.
Defined.

Lemma build_success_perm rows rows' minimal w w' self1 w1 :
  NoDup (names rows) → "root" ∉ names rows → rows ≡ₚ rows' →
  build rows minimal w = Some (Ret true, self1, w1) →
  ∃ self2 w2, build rows' minimal w' = Some (Ret true, self2, w2).
Proof.
  intros Hnd Hroot Hperm Hb1.
  apply build_keys in Hb1 as (Hdf1 & Hok1 & Hkeys1).
  apply build_canon.
  - unfold names. by rewrite <- Hperm.
  - unfold names. by rewrite <- Hperm.
  - intros row Hrow Hinc.
    destruct (proj2 (Hkeys1 (col_folder_name row))) as [f Hf].
    { right. exists row. by rewrite Hperm. }
    exists (shape f). apply (Canon_perm rows); [done|].
    rewrite <- Hdf1. by apply Hok1.
Qed.



(** ** The name check *)

Lemma append_cons (x : Ascii.ascii) (a b : string) :
  String x a +:+ b = String x (a +:+ b).
Proof. reflexivity. Qed.

Lemma append_assoc (a b c : string) : (a +:+ b) +:+ c = a +:+ b +:+ c.
Proof.
  induction a as [|x a IH]; [done|]. rewrite !append_cons. by f_equal.
Qed.

Lemma prefix_spec (a s : string) :
  String.prefix a s = true ↔ ∃ post, s = a +:+ post.
Proof.
  revert a. induction s as [|c s IH]; intros [|x a]; simpl.
  - split; [by exists ""|done].
  - split; [done|]. intros [post H]. by rewrite append_cons in H.
  - split; [by eexists|done].
  - destruct (Ascii.ascii_dec x c) as [->|Hne].
    + rewrite IH. split; intros [post H]; exists post.
      * rewrite append_cons. by f_equal.
      * rewrite append_cons in H. by injection H.
    + split; [done|]. intros [post H]. rewrite append_cons in H.
      by injection H as -> _.
Qed.

Lemma contains_eq (sub s : string) :
  Py.contains sub s =
    if String.prefix sub s then true
    else match s with
         | EmptyString => false
         | String _ s' => Py.contains sub s'
         end.
Proof. by destruct s. Qed.

Lemma contains_spec (sub s : string) :
  Py.contains sub s = true ↔ occurs sub s.
Proof.
  split.
  - induction s as [|c s IH]; rewrite contains_eq.
    + destruct (String.prefix sub "") eqn:Hp; [|done].
      apply prefix_spec in Hp as [post Hp]. intros _. by exists "", post.
    + destruct (String.prefix sub (String c s)) eqn:Hp.
      * apply prefix_spec in Hp as [post Hp]. intros _. by exists "", post.
      * intros (pre & post & ->)%IH. by exists (String c pre), post.
  - intros (pre & post & ->). induction pre as [|c pre IH].
    + assert (Hp : String.prefix sub (sub +:+ post) = true)
        by (apply prefix_spec; eauto).
      change ("" +:+ sub +:+ post) with (sub +:+ post).
      by rewrite contains_eq, Hp.
    + rewrite append_cons, contains_eq, IH. by case_match.
Qed.

Lemma any_contains (l : list string) (name : string) :
  Py.any (map (λ r, Py.contains r name) l) = true
  ↔ ∃ r, r ∈ l ∧ occurs r name.
Proof.
  unfold Py.any. rewrite existsb_exists. split.
  - intros (b & (r & <- & Hr)%in_map_iff & Hb).
    exists r. split; [by apply list_elem_of_In|]. by apply contains_spec.
  - intros (r & Hr & Ho). exists true. split; [|done].
    apply in_map_iff. exists r. split; [by apply contains_spec|].
    by apply list_elem_of_In.
Qed.

(** X12. A folder name passes the check of [Folder.__init__] exactly when
    none of the reserved characters and none of the reserved device names
    occurs in it as a contiguous piece: the match is by substring and by
    case, so ['ICONS'] is refused for its ['CON'] and ['icons'] is
    accepted. *)
Theorem valid_name_spec (name : string) :
  valid_name name = true
  ↔ ∀ r, r ∈ reserved_chars ++ reserved_names → ¬ occurs r name.
Proof.
  unfold valid_name, has_reserved_char, has_reserved_name.
  rewrite andb_true_iff, !negb_true_iff, <- !not_true_iff_false.
  rewrite !any_contains. split.
  - intros [Hc Hn] r [Hr|Hr]%elem_of_app Ho; [apply Hc|apply Hn]; eauto.
  - intros H. split; intros (r & Hr & Ho); apply (H r); auto;
      apply elem_of_app; auto.
Qed.

(** ** Paths and what a construction leaves on disk *)

Lemma join_snoc (sep x : string) (l : list string) :
  l ≠ [] → Py.join sep (l ++ [x]) = Py.join sep l +:+ sep +:+ x.
Proof.
  unfold Py.join. induction l as [|y l IH]; [done|]. intros _.
  destruct l as [|z l]; [done|].
  change (String.concat sep ((y :: z :: l) ++ [x]))
    with (y +:+ sep +:+ String.concat sep ((z :: l) ++ [x])).
  rewrite IH by done.
  change (String.concat sep (y :: z :: l))
    with (y +:+ sep +:+ String.concat sep (z :: l)).
  by rewrite !append_assoc.
Qed.

Lemma names_up_nonempty f : names_up f ≠ [].
Proof. by destruct f as [o n [p|] r]. Qed.

(** X13. A folder constructed under a parent gets the parent's path, a
    ['/'] and its own name as its path: whenever [Folder(name, p, readme)]
    returns for a valid name, the parent has a path and the new node's path
    extends it by ['/' + name]. *)
Theorem child_path_extends_parent_path (name : string) (p : Folder)
    (readme : option string) (w : World) (f : Folder) (w' : World) :
  valid_name name = true →
  Folder__init__ name (Some p) readme w = (Ret f, w') →
  ∃ parent_path,
    folder_path p = Ret parent_path
    ∧ folder_path f = Ret (parent_path +:+ "/" +:+ name).
Proof.
  intros Hv Hf. apply Folder_init_child_eq in Hf as [-> Hp].
  rewrite Hv. specialize (Hp Hv). eexists. split.
  - by apply folder_path_named.
  - rewrite folder_path_named by done. simpl.
    rewrite join_snoc; [done|].
    intros H. apply (names_up_nonempty p).
    by rewrite <- (rev_involutive (names_up p)), H.
Qed.

Lemma child_path_extends_parent_path_witness :
  ∃ f w',
    Folder__init__ "data" (Some root_object) None after_root = (Ret f, w')
    ∧ ∃ parent_path,
        folder_path root_object = Ret parent_path
        ∧ folder_path f = Ret (parent_path +:+ "/" +:+ "data").
Proof.
  assert (∃ f w', Folder__init__ "data" (Some root_object) None after_root
                  = (Ret f, w')) as (f & w' & Hf).
  { eexists _, _. vm_compute. reflexivity. }
  exists f, w'. split; [exact Hf|].
  exact (child_path_extends_parent_path "data" root_object None after_root
           f w' eq_refl Hf).
Defined.

Lemma wrap_eq target s : wrap target s = s +:+ target +:+ s.
Proof. reflexivity. Qed.



Lemma union_present (x : string) (X : gset string) : x ∈ X → {[x]} ∪ X = X.
Proof.
  intros Hx. apply set_eq. intros y.
  rewrite elem_of_union, elem_of_singleton.
  split; [intros [->|?]; auto|auto].
Qed.

Lemma Folder_init_valid name p readme w :
  valid_name name = true →
  Folder__init__ name (Some p) readme w =
    match create_folder (mkFolder (next_oid w) (Some name) (Some p) readme)
            (alloc w).2 with
    | (Raise e, w') => (Raise e, w')
    | (Ret _, w') =>
        (Ret (mkFolder (next_oid w) (Some name) (Some p) readme), w')
    end.
Proof.
  intros Hv. unfold Folder__init__. simpl.
  by rewrite (checked_name_valid _ _ Hv).
Qed.

(** The README file of a folder, as [create_folder] names and fills it. *)
Lemma create_folder_named self w path :
  folder_path self = Ret path →
  ∃ w',
    create_folder self w = (Ret tt, w')
    ∧ dirs w' = {[path]} ∪ dirs w
    ∧ stdout w' = (if decide (path ∈ dirs w)
                   then stdout w ++ [str_exn (FileExistsError path)]
                   else stdout w)
    ∧ next_oid w' = next_oid w
    ∧ files w' =
        match readme_text self with
        | None => files w
        | Some text =>
            <[path +:+ "/README_"
                +:+ Py.capitalize (default "" (folder_name self)) +:+ ".md"
              := "##" +:+ wrap (Py.capitalize (default "" (folder_name self)))
                            "**" +:+ Py.nl +:+ Py.nl
                   +:+ "Folder path: " +:+ wrap path "`" +:+ Py.nl +:+ Py.nl
                   +:+ text]> (files w)
        end.
Proof.
  intros Hp. unfold create_folder, os_mkdir. rewrite Hp.
  destruct (decide (path ∈ dirs w)) as [Hin|Hin];
    destruct (readme_text self) as [text|]; eexists;
    (split; [reflexivity|]); simpl; repeat split; auto;
    by rewrite union_present.
Qed.

Lemma names_up_shape f g : shape f = shape g → names_up f = names_up g.
Proof.
  revert g.
  induction f as [o n r|o n p r IH] using Folder_induction;
    intros [o' n' [p'|] r']; simpl; intros [= -> ?]; try done.
  f_equal. by apply IH.
Qed.

(** The path of a node depends on its shape only. *)
Lemma folder_path_shape f g : shape f = shape g → folder_path f = folder_path g.
Proof.
  intros H. pose proof (names_up_shape _ _ H) as Hn.
  assert (Hnamed : named f = named g) by (by rewrite <- !named_shape, H).
  destruct (named f) eqn:Hf.
  - rewrite !folder_path_named by done. by rewrite Hn.
  - by rewrite !folder_path_unnamed.
Qed.



(** ** Two runs of the same template *)

Lemma check_extends minimal fuel parent explored self w b self' w' :
  _check_parent_branch_exists fuel minimal parent explored self w
    = Some (b, self', w') →
  extends w w'.
Proof.
  intros H.
  apply (check_relates minimal (λ _ w _ w', extends w w')) in H; auto.
  - intros. apply extends_refl.
  - intros. by eapply extends_trans.
  - intros. apply print_extends.
  - intros. by eapply add_extends.
Qed.

Lemma for_rows_extends minimal rows self w o self' w' :
  for_rows minimal rows self w = Some (o, self', w') → extends w w'.
Proof.
  intros H.
  apply (for_rows_relates minimal (λ _ w _ w', extends w w')) in H; auto.
  - intros. apply extends_refl.
  - intros. by eapply extends_trans.
  - intros. apply print_extends.
  - intros. by eapply add_extends.
Qed.

Lemma same_tree_lookup t1 t2 k f1 :
  same_tree t1 t2 → t1 !! k = Some f1 →
  ∃ f2, t2 !! k = Some f2 ∧ shape f1 = shape f2.
Proof.
  intros H H1. specialize (H k). rewrite H1 in H.
  destruct (t2 !! k) as [f2|]; [|done]. injection H as H. eauto.
Qed.

Lemma same_tree_None t1 t2 k :
  same_tree t1 t2 → t1 !! k = None → t2 !! k = None.
Proof.
  intros H H1. specialize (H k). rewrite H1 in H.
  by destruct (t2 !! k).
Qed.

Lemma same_tree_insert t1 t2 k f1 f2 :
  same_tree t1 t2 → shape f1 = shape f2 →
  same_tree (<[k := f1]> t1) (<[k := f2]> t2).
Proof.
  intros H Hs k'. rewrite !lookup_insert. case_decide; [|apply H].
  simpl. by rewrite Hs.
Qed.

(** Two constructions of the same folder under parents of the same shape:
    the same outcome, and no new directory in the second world when it
    already holds what the first construction left. *)
Lemma Folder_init_alike name p1 p2 readme w1 w2 o1 w1' o2 w2' :
  shape p1 = shape p2 →
  Folder__init__ name (Some p1) readme w1 = (o1, w1') →
  Folder__init__ name (Some p2) readme w2 = (o2, w2') →
  match o1, o2 with
  | Ret f1, Ret f2 => shape f1 = shape f2
  | Raise e1, Raise e2 => e1 = e2
  | _, _ => False
  end
  ∧ (dirs w1' ⊆ dirs w2 → dirs w2' = dirs w2).
Proof.
  intros Hs. destruct (valid_name name) eqn:Hv.
  - rewrite !Folder_init_valid by done.
    set (f1 := mkFolder (next_oid w1) (Some name) (Some p1) readme).
    set (f2 := mkFolder (next_oid w2) (Some name) (Some p2) readme).
    assert (Hshape : shape f1 = shape f2) by (simpl; by rewrite Hs).
    pose proof (folder_path_shape _ _ Hshape) as Hpath.
    destruct (folder_path f1) as [path|e] eqn:Hp1.
    + destruct (create_folder_named f1 (alloc w1).2 path Hp1)
        as (u1 & -> & Hd1 & _).
      destruct (create_folder_named f2 (alloc w2).2 path (eq_sym Hpath))
        as (u2 & -> & Hd2 & _).
      intros [= <- <-] [= <- <-]. split; [done|].
      intros Hsub. rewrite Hd2. simpl. apply union_present, Hsub.
      rewrite Hd1. apply elem_of_union. left. by apply elem_of_singleton.
    + unfold create_folder. rewrite Hp1, <- Hpath.
      by intros [= <- <-] [= <- <-].
  - unfold Folder__init__. simpl.
    destruct (checked_name_invalid name (Some p1) Hv) as [H1|H1];
      rewrite H1.
    all: replace (checked_name name (Some p2))
           with (checked_name name (Some p1))
      by (unfold checked_name; by repeat case_match).
    all: rewrite H1, !report_init_error_other.
    all: intros [= <- <-] [= <- <-]; simpl; by rewrite Hs.
Qed.

Lemma add_alike i s1 s2 w1 w2 o1 s1' w1' o2 s2' w2' :
  alike s1 s2 →
  _add_folder_to_tree i s1 w1 = (o1, s1', w1') →
  _add_folder_to_tree i s2 w2 = (o2, s2', w2') →
  o1 = o2 ∧ alike s1' s2' ∧ (dirs w1' ⊆ dirs w2 → dirs w2' = dirs w2).
Proof.
  intros [Hdf Htree]. unfold _add_folder_to_tree. rewrite <- Hdf.
  destruct (_df s1 !! i) as [row|];
    [|by intros [= <- <- <-] [= <- <- <-]].
  destruct (_folder_tree s1 !! col_parent row) as [p1|] eqn:Hp1.
  2:{ rewrite (same_tree_None _ _ _ Htree Hp1).
      by intros [= <- <- <-] [= <- <- <-]. }
  destruct (same_tree_lookup _ _ _ _ Htree Hp1) as (p2 & -> & Hs).
  destruct (Folder__init__ _ (Some p1) _ w1) as [r1 u1] eqn:H1.
  destruct (Folder__init__ _ (Some p2) _ w2) as [r2 u2] eqn:H2.
  destruct (Folder_init_alike _ _ _ _ _ _ _ _ _ _ Hs H1 H2) as [Ho Hd].
  destruct r1 as [f1|e1], r2 as [f2|e2]; try done.
  - intros [= <- <- <-] [= <- <- <-]. repeat split; auto.
    simpl. by apply same_tree_insert.
  - intros [= <- <- <-] [= <- <- <-]. subst e2. by repeat split.
Qed.

Lemma check_alike minimal fuel :
  ∀ parent explored s1 s2 w1 w2 b s1' w1',
    alike s1 s2 →
    _check_parent_branch_exists fuel minimal parent explored s1 w1
      = Some (b, s1', w1') →
    ∃ s2' w2',
      _check_parent_branch_exists fuel minimal parent explored s2 w2
        = Some (b, s2', w2')
      ∧ alike s1' s2'
      ∧ (dirs w1' ⊆ dirs w2 → dirs w2' = dirs w2).
Proof.
  induction fuel as [|fuel IH];
    intros parent explored s1 s2 w1 w2 b s1' w1' Halike;
    pose proof Halike as [Hdf Htree]; simpl; rewrite <- Hdf.
  all: destruct (_folder_tree s1 !! parent) as [pf|] eqn:Hpf.
  all: try (destruct (same_tree_lookup _ _ _ _ Htree Hpf) as (? & -> & _);
            intros [= <- <- <-]; by eauto 10).
  all: rewrite (same_tree_None _ _ _ Htree Hpf).
  all: destruct (bool_decide (parent ∈ map col_folder_name (_df s1)));
    simpl; [|intros [= <- <- <-]; by eauto 10].
  all: destruct (bool_decide (parent ∈ explored));
    [intros [= <- <- <-]; by eauto 10|].
  all: destruct (Py.index _ _) as [index|];
    [|intros [= <- <- <-]; by eauto 10].
  all: destruct (_df s1 !! index) as [row|];
    [|intros [= <- <- <-]; by eauto 10].
  all: destruct (included minimal row); [|intros [= <- <- <-]; by eauto 10].
  - discriminate.
  - destruct (_check_parent_branch_exists fuel _ _ _ s1 w1)
      as [[[[] s1a] w1a]|] eqn:Hrec; [| |discriminate].
    + destruct (IH _ _ _ _ _ w2 _ _ _ Halike Hrec)
        as (s2a & w2a & -> & Ha & Hda).
      destruct (_add_folder_to_tree index s1a w1a) as [[o1 s1b] w1b] eqn:H1.
      destruct (_add_folder_to_tree index s2a w2a) as [[o2 s2b] w2b] eqn:H2.
      destruct (add_alike _ _ _ _ _ _ _ _ _ _ _ Ha H1 H2) as (_ & Hb & Hdb).
      intros [= <- <- <-]. do 2 eexists. split; [reflexivity|].
      split; [done|]. intros Hsub.
      pose proof (add_extends _ _ _ _ _ _ H1) as (Hsub1 & _).
      assert (Heq : dirs w2a = dirs w2)
        by (apply Hda; by etrans).
      rewrite <- Heq. apply Hdb. by rewrite Heq.
    + destruct (IH _ _ _ _ _ w2 _ _ _ Halike Hrec)
        as (s2a & w2a & -> & Ha & Hda).
      intros [= <- <- <-]. eauto 10.
Qed.

Lemma for_rows_alike minimal rows :
  ∀ s1 s2 w1 w2 o s1' w1',
    alike s1 s2 →
    for_rows minimal rows s1 w1 = Some (o, s1', w1') →
    ∃ s2' w2',
      for_rows minimal rows s2 w2 = Some (o, s2', w2')
      ∧ alike s1' s2'
      ∧ (dirs w1' ⊆ dirs w2 → dirs w2' = dirs w2).
Proof.
  induction rows as [|i rows IH]; intros s1 s2 w1 w2 o s1' w1' Halike;
    pose proof Halike as [Hdf Htree]; simpl; rewrite <- ?Hdf.
  { intros [= <- <- <-]. eauto 10. }
  destruct (_df s1 !! i) as [row|]; [|intros [= <- <- <-]; by eauto 10].
  destruct (included minimal row); [|by apply IH].
  destruct (_check_parent_branch_exists _ _ _ _ s1 w1)
    as [[[[] s1a] w1a]|] eqn:Hc; [| |discriminate].
  2:{ destruct (check_alike _ _ _ _ _ _ _ w2 _ _ _ Halike Hc)
        as (s2a & w2a & -> & Ha & Hda).
      intros [= <- <- <-]. eauto 10. }
  destruct (check_alike _ _ _ _ _ _ _ w2 _ _ _ Halike Hc)
    as (s2a & w2a & -> & Ha & Hda).
  destruct (_add_folder_to_tree i s1a w1a) as [[o1 s1b] w1b] eqn:H1.
  destruct (_add_folder_to_tree i s2a w2a) as [[o2 s2b] w2b] eqn:H2.
  destruct (add_alike _ _ _ _ _ _ _ _ _ _ _ Ha H1 H2) as (<- & Hb & Hdb).
  pose proof (add_extends _ _ _ _ _ _ H1) as (Hsub1 & _).
  destruct o1 as [[]|e].
  - intros Hrest.
    pose proof (for_rows_extends _ _ _ _ _ _ _ Hrest) as (Hsub2 & _).
    destruct (IH _ _ _ w2b _ _ _ Hb Hrest) as (s2' & w2' & -> & Hz & Hdz).
    do 2 eexists. split; [reflexivity|]. split; [done|]. intros Hsub.
    assert (Heq : dirs w2a = dirs w2)
      by (apply Hda; etrans; [exact Hsub1|]; by etrans).
    assert (Heq' : dirs w2b = dirs w2a)
      by (apply Hdb; rewrite Heq; by etrans).
    rewrite <- Heq, <- Heq'. apply Hdz. by rewrite Heq', Heq.
  - intros [= <- <- <-]. do 2 eexists. split; [reflexivity|].
    split; [done|]. intros Hsub.
    assert (Heq : dirs w2a = dirs w2) by (apply Hda; by etrans).
    rewrite <- Heq. apply Hdb. by rewrite Heq.
Qed.

Lemma fresh_alike rows o1 o2 :
  alike
    (mkProjectTemplate rows {["root" := mkFolder o1 (Some ".") None None]})
    (mkProjectTemplate rows {["root" := mkFolder o2 (Some ".") None None]}).
Proof.
  split; [done|]. intros k. simpl. rewrite !lookup_singleton.
  by case_decide.
Qed.


(** X17. Running the build again, with a new builder, in the world that a
    first run of the same template left: it returns or raises the same, it
    builds the same registry up to object identity, and it creates no
    directory, every [os.mkdir] meeting a directory that exists. *)
Theorem rebuild_creates_no_directory (rows : list Row) (minimal : bool)
    (w : World) (o : outcome bool) (self1 : ProjectTemplate) (w1 : World) :
  build rows minimal w = Some (o, self1, w1) →
  ∃ self2 w2,
    build rows minimal w1 = Some (o, self2, w2)
    ∧ same_tree (_folder_tree self1) (_folder_tree self2)
    ∧ dirs w2 = dirs w1.
Proof.
  unfold build. rewrite !ProjectTemplate_init_eq.
  unfold create_project_tree. simpl. intros H1.
  destruct (for_rows_alike _ _ _ _ _
              (mkWorld (dirs w1) (files w1) (stdout w1) (S (next_oid w1)))
              _ _ _ (fresh_alike rows (next_oid w) (next_oid w1)) H1)
    as (self2 & w2 & H2 & [_ Hsame] & Hd).
  exists self2, w2. split; [done|]. split; [done|]. by apply Hd.
Qed.

Lemma rebuild_creates_no_directory_witness :
  ∃ self1 w1 self2 w2,
    build raw_first false empty_dir = Some (Ret true, self1, w1)
    ∧ build raw_first false w1 = Some (Ret true, self2, w2)
    ∧ same_tree (_folder_tree self1) (_folder_tree self2)
    ∧ dirs w2 = dirs w1.
Proof.
  assert (∃ self1 w1, build raw_first false empty_dir
                      = Some (Ret true, self1, w1)) as (self1 & w1 & H1).
  { eexists _, _. vm_compute. reflexivity. }
  destruct (rebuild_creates_no_directory raw_first false empty_dir
              (Ret true) self1 w1 H1) as (self2 & w2 & H).
  exists self1, w1, self2, w2. split; [exact H1|exact H].
Defined.

(** ** The entry point *)

Lemma acyclic_build_count rows w :
  acyclic rows → parents_defined rows → NoDup (names rows) →
  Forall (λ n, valid_name n = true) (names rows) →
  ∃ self' w',
    build rows false w = Some (Ret true, self', w')
    ∧ n_folders self' = length rows + 1.
Proof.
  intros Hacyc Hdef Hnd Hvalid.
  pose proof (acyclic_root_free rows Hacyc Hdef Hvalid) as Hroot.
  destruct (build_canon rows false w Hnd Hroot) as (self' & w' & Hb).
  { intros row Hrow _. by apply acyclic_canon. }
  exists self', w'. split; [done|].
  apply build_keys in Hb as (_ & _ & Hkeys).
  unfold n_folders. rewrite (registry_size _ (names rows)); auto.
  - unfold names. by rewrite length_map.
  - intros k. rewrite Hkeys. apply or_iff_compat_l. split.
    + intros (row & Hrow & _ & <-). apply list_elem_of_fmap. eauto.
    + intros (row & -> & Hrow)%list_elem_of_fmap. eauto.
Qed.

Lemma main_of_build rows w o self' w' :
  build rows false w = Some (o, self', w') →
  main (Some rows) w =
    Some match o with
         | Raise e => (Raise e, w')
         | Ret true => (Ret tt, print (msg_success (n_folders self')) w')
         | Ret false => (Ret tt, print msg_failure w')
         end.
Proof.
  unfold build, main. rewrite ProjectTemplate_init_eq.
  intros ->. by destruct o as [[]|].
Qed.





(** When the template file is missing, the script prints that the
    template file was not found and then ends with [AttributeError]: the
    builder has no data frame, and [create_project_tree] trips on it. *)
Lemma main_without_template (w : World) :
  ∃ w',
    main None w = Some (Raise (AttributeError "_df"), w')
    ∧ stdout w' = stdout w ++ [msg_no_template]
    ∧ dirs w' = dirs w
    ∧ files w' = files w.
Proof. eexists. split; [reflexivity|]. by repeat split. Qed.

Lemma failure_is_not_success n : msg_failure ≠ msg_success n.
Proof.
  unfold msg_failure, msg_success. intros H.
  apply (f_equal (String.get 12)) in H. discriminate H.
Qed.

(** X20. The script reports success only for a build that succeeded: when
    it ends normally and the line it printed last is a success line, the
    template file was found, [create_project_tree] returned [True] on it,
    and the number in the line is the registry's count. A missing template
    file, a build that returns [False] and a build that raises never end
    in a success line. *)
Theorem success_line_means_built (template : option (list Row)) (w w' : World)
    (n : nat) :
  main template w = Some (Ret tt, w') →
  last (stdout w') = Some (msg_success n) →
  ∃ rows self' w1,
    template = Some rows
    ∧ build rows false w = Some (Ret true, self', w1)
    ∧ w' = print (msg_success (n_folders self')) w1.
Proof.
  destruct template as [rows|]; [|discriminate].
  destruct (build_total rows false w) as [[[o self'] w1] Hb].
  rewrite (main_of_build _ _ _ _ _ Hb).
  destruct o as [[]|e]; intros [= <-] Hlast.
  - by exists rows, self', w1.
  - simpl in Hlast. rewrite last_snoc in Hlast.
    exfalso. apply (failure_is_not_success n). congruence.
Qed.

Lemma success_line_means_built_witness :
  ∃ w' rows self' w1,
    main (Some data_raw) empty_dir = Some (Ret tt, w')
    ∧ Some data_raw = Some rows
    ∧ build rows false empty_dir = Some (Ret true, self', w1)
    ∧ w' = print (msg_success (n_folders self')) w1.
Proof.
  assert (∃ w', main (Some data_raw) empty_dir = Some (Ret tt, w')
                ∧ last (stdout w') = Some (msg_success 3))
    as (w' & Hm & Hl).
  { eexists. split; vm_compute; reflexivity. }
  destruct (success_line_means_built (Some data_raw) empty_dir w' 3 Hm Hl)
    as (rows & self' & w1 & H).
  exists w', rows, self', w1. split; [exact Hm|exact H].
Defined.

(** ** The count *)

(** X21. [n_folders] never goes down: whatever [create_project_tree]
    returns or raises, the registry holds at least as many entries after
    the call as before. *)
Theorem n_folders_never_decreases (minimal : bool) (self : ProjectTemplate)
    (w : World) (o : outcome bool) (self' : ProjectTemplate) (w' : World) :
  create_project_tree minimal self w = Some (o, self', w') →
  n_folders self ≤ n_folders self'.
Proof.
  intros H. apply for_rows_preserves in H as (_ & Hkeys & _).
  unfold n_folders. rewrite <- !size_dom. apply subseteq_size.
  intros k Hk%elem_of_dom. by apply elem_of_dom, Hkeys.
Qed.

Lemma n_folders_never_decreases_witness :
  ∃ self w self' w',
    ProjectTemplate__init__ under_starred empty_dir = (Ret self, w)
    ∧ create_project_tree false self w
      = Some (Raise (KeyError "b"), self', w')
    ∧ n_folders self ≤ n_folders self'.
Proof.
  assert (∃ self w self' w',
             ProjectTemplate__init__ under_starred empty_dir = (Ret self, w)
             ∧ create_project_tree false self w
               = Some (Raise (KeyError "b"), self', w'))
    as (self & w & self' & w' & Hinit & Hrun).
  { eexists _, _, _, _. split; [reflexivity|]. vm_compute. reflexivity. }
  exists self, w, self', w'. split; [exact Hinit|]. split; [exact Hrun|].
  exact (n_folders_never_decreases false self w _ self' w' Hrun).
Defined.

(** ** Parent links *)

Lemma shape_child f n ps r :
  shape f = mkShape n (Some ps) r →
  folder_name f = n ∧ readme_text f = r
  ∧ ∃ pf, parent f = Some pf ∧ shape pf = ps.
Proof.
  destruct f as [o n' [p|] r']; simpl; intros [= -> <- ->]; eauto.
Qed.

Lemma shape_name f n op r : shape f = mkShape n op r → folder_name f = n.
Proof. destruct f as [o n' [p|] r']; simpl; by intros [= -> _ _]. Qed.

(** X22. The registry's parent links follow the template. For a template
    with distinct valid folder names, none of them ['root'], after any run
    from a new builder, whatever it returns or raises, the node registered
    under a row's name carries that name and the row's README text, and
    its parent is a node named as the row's parent column says, the root
    key standing for the root's name ['.']. *)
Theorem parent_links_follow_template (rows : list Row) (minimal : bool)
    (w : World) (o : outcome bool) (self' : ProjectTemplate) (w' : World)
    (row : Row) (f : Folder) :
  Forall (λ n, valid_name n = true) (names rows) →
  NoDup (names rows) →
  "root" ∉ names rows →
  build rows minimal w = Some (o, self', w') →
  row ∈ rows →
  _folder_tree self' !! col_folder_name row = Some f →
  folder_name f = Some (col_folder_name row)
  ∧ readme_text f = col_readme_text row
  ∧ ∃ pf, parent f = Some pf
          ∧ folder_name pf
            = Some (if decide (col_parent row = "root") then "."
                    else col_parent row).
Proof.
  intros Hvalid Hnd Hroot. unfold build. rewrite ProjectTemplate_init_eq.
  unfold create_project_tree. intros H Hrow Hf.
  apply for_rows_preserves in H as (Hdf & _ & Hok & _).
  specialize (Hok (fresh_TreeOk _ _ _)). simpl in Hdf.
  apply Hok in Hf. rewrite Hdf in Hf.
  assert (Hv : ∀ r, r ∈ rows → valid_name (col_folder_name r) = true).
  { intros r Hr. rewrite Forall_forall in Hvalid.
    apply Hvalid, list_elem_of_fmap. eauto. }
  inversion Hf as [Hk|row' ps Hrow' Hinc Hp _ Hk Hs].
  { exfalso. apply Hroot. rewrite Hk. apply list_elem_of_fmap. eauto. }
  assert (row' = row) as -> by (by apply (row_unique rows Hnd)).
  rewrite (Hv row Hrow) in Hs. symmetry in Hs.
  apply shape_child in Hs as (Hn & Hr & pf & Hpf & Hps).
  split; [done|]. split; [done|]. exists pf. split; [done|].
  rewrite <- Hps in Hp.
  inversion Hp as [Hk' Hs'|row'' ps' Hrow'' _ _ _ Hk' Hs'].
  - rewrite decide_True by done. symmetry in Hs'.
    by apply shape_name in Hs'.
  - rewrite decide_False.
    + rewrite (Hv row'' Hrow'') in Hs'. symmetry in Hs'.
      apply shape_name in Hs'. by rewrite Hs', Hk'.
    + intros Heq. apply Hroot. rewrite <- Heq.
      apply list_elem_of_fmap. eauto.
Qed.

Lemma parent_links_follow_template_witness :
  ∃ self' w' f,
    build raw_first false empty_dir = Some (Ret true, self', w')
    ∧ _folder_tree self' !! "raw" = Some f
    ∧ folder_name f = Some "raw"
    ∧ readme_text f = Some "notes"
    ∧ ∃ pf, parent f = Some pf ∧ folder_name pf = Some "data".
Proof.
  assert (∃ self' w' f,
             build raw_first false empty_dir = Some (Ret true, self', w')
             ∧ _folder_tree self' !! "raw" = Some f)
    as (self' & w' & f & Hb & Hf).
  { eexists _, _, _. split; vm_compute; reflexivity. }
  exists self', w', f. split; [exact Hb|]. split; [exact Hf|].
  refine (parent_links_follow_template raw_first false empty_dir (Ret true)
            self' w' (entry "raw" "data" true) f _ _ _ Hb _ Hf).
  - repeat constructor.
  - eapply bool_decide_unpack. vm_compute. exact I.
  - eapply bool_decide_unpack. vm_compute. exact I.
  - by left.
Defined.
